(** * eds-server: the consumer's intake and batched-dispatch engine

    A shallow embedding of [internal/consumer/consumer.go]: the pending
    batch, [nackEverything], [handleError], [flush], [shouldSkip], one
    iteration of the [bufferer] loop and the loop itself, [Pause],
    [Unpause] and the delivery-policy part of [CreateConsumer].

    Conventions of the embedding.
    - A Go [int], [int64] or [uint64] is a [Z]; the one conversion the code
      performs, [uint64(c.max)], is written out with its wrap-around.
    - A [time.Time] is a [Z] (nanoseconds since the epoch), a
      [time.Duration] a [Z] (nanoseconds).  Every syntactic read of the
      clock ([time.Now], [time.Since]) takes a reading supplied by the
      environment, so nothing is assumed about how readings relate.
    - A method of the consumer that mutates [c] is a function from the
      consumer record to the new record together with the list of
      externally visible actions it performed, in program order.
    - Logging and the Prometheus gauges are not modelled. *)

From stdpp Require Import gmap strings list.
From Stdlib Require Import ZArith Lia Ascii.

Local Open Scope Z_scope.

Abbreviation Time := Z (only parsing).
Abbreviation Duration := Z (only parsing).

(** ** Errors *)

(** Go error values.  [ErrWrap] is [fmt.Errorf("...: %w", err)]. *)
Inductive error : Type :=
  | ErrDriverStopped
  | ErrConsumerNotFound
  | ErrOther (msg : string)
  | ErrWrap (ctx : string) (inner : error).

#[global] Instance error_eq_dec : EqDecision error.
Proof. solve_decision. Defined.

(** [errors.Is]: walks the chain of wrapped errors looking for [target]. *)
Fixpoint errors_Is (err target : error) : bool :=
  if decide (err = target) then true
  else match err with
       | ErrWrap _ inner => errors_Is inner target
       | _ => false
       end.

(** ** Upstream messages *)

Record MsgMetadata : Type := mkMetadata {
  SequenceConsumer : Z;
  SequenceStream : Z;
  NumDelivered : Z;
  NumPending : Z   (* uint64 *)
}.

(** A [jetstream.Msg].  [msg_ptr] is the identity of the Go object (the
    code compares messages with [==]); the remaining fields are what the
    object's methods return when the consumer calls them. *)
Record Msg : Type := mkMsg {
  msg_ptr : nat;
  msg_Data : string;
  msg_Metadata : error + MsgMetadata;
  msg_Ack : option error;
  msg_Nak : option error
}.

(** Go's [m == msg] on two interface values holding message pointers. *)
Definition msg_eqb (a b : Msg) : bool := Nat.eqb (msg_ptr a) (msg_ptr b).

(** Modelled from the spec: the struct [internal.DBChangeEvent], whose
    declaration is not among the sources; the fields are those of the data
    model, of which the consumer reads [Table] and [Timestamp] and writes
    [SchemaValidatedPath] and [NatsMsg]. *)
Record DBChangeEvent : Type := mkEvent {
  ID : string;
  Operation : string;
  Table : string;
  Key : list string;
  Timestamp : Z;            (* int64, milliseconds since the epoch *)
  MvccTimestamp : string;
  ModelVersion : string;
  Before : string;
  After : string;
  Diff : list string;
  Imported : bool;
  SchemaValidatedPath : option string;
  NatsMsg : option Msg
}.

Definition set_NatsMsg (m : Msg) (e : DBChangeEvent) : DBChangeEvent :=
  mkEvent (ID e) (Operation e) (Table e) (Key e) (Timestamp e)
          (MvccTimestamp e) (ModelVersion e) (Before e) (After e) (Diff e)
          (Imported e) (SchemaValidatedPath e) (Some m).

Definition set_SchemaValidatedPath (p : string) (e : DBChangeEvent)
  : DBChangeEvent :=
  mkEvent (ID e) (Operation e) (Table e) (Key e) (Timestamp e)
          (MvccTimestamp e) (ModelVersion e) (Before e) (After e) (Diff e)
          (Imported e) (Some p) (NatsMsg e).

(** [time.UnixMilli]. *)
Definition UnixMilli (ms : Z) : Time := ms * 1000000.

(** [t.Before(u)]. *)
Definition Before_ (t u : Time) : bool := t <? u.

(** [uint64(n)] for a Go [int] on a 64-bit platform. *)
Definition uint64 (n : Z) : Z := n mod 2 ^ 64.

Definition emptyBufferPauseTime : Duration := 50 * 1000000.
Definition minPendingLatency : Duration := 2 * 1000000000.
Definition maxPendingLatency : Duration := 30 * 1000000000.

(** ** The collaborators the consumer calls *)

(** Modelled from the spec: the interface [internal.Driver] (its
    declaration is not among the sources), over a driver state [D]:
    [MaxBatchSize() int], [Process(logger, event) (bool, error)] and
    [Flush(logger) error].  [SetSessionID] is the optional
    [internal.DriverSessionHandler] capability. *)
Class Driver (D : Type) : Type := {
  MaxBatchSize : D -> Z;
  Process : D -> DBChangeEvent -> D * (bool * option error);
  Flush : D -> D * option error;
  SetSessionID : option (D -> string -> D)
}.

(** Modelled from the spec: the interface [internal.SchemaValidator] (its
    declaration is not among the sources); [Validate(event)] returns
    [(found, valid, path, err)]. *)
Record ValidateResult : Type := mkValidate {
  v_found : bool;
  v_valid : bool;
  v_path : string;
  v_err : option error
}.

Definition SchemaValidator : Type := DBChangeEvent -> ValidateResult.

(** A [jetstream.ConsumeContext] handle. *)
Definition ConsumeContext : Type := nat.

(** [jetstream.DeliverPolicy] and [jetstream.AckPolicy], in the order of
    their constants (the first is the zero value). *)
Inductive DeliverPolicy : Type :=
  | DeliverAllPolicy
  | DeliverLastPolicy
  | DeliverNewPolicy
  | DeliverByStartSequencePolicy
  | DeliverByStartTimePolicy
  | DeliverLastPerSubjectPolicy.

Inductive AckPolicy : Type :=
  | AckExplicitPolicy
  | AckAllPolicy
  | AckNonePolicy.

(** The fields of [jetstream.ConsumerConfig] that [CreateConsumer] sets
    (prefixed [js_]; [MaxAckPending] is also a field of the repository's
    own [ConsumerConfig]). *)
Record JsConsumerConfig : Type := mkJsConfig {
  js_Durable : string;
  js_MaxAckPending : Z;
  js_MaxDeliver : Z;
  js_AckWait : Duration;
  js_MaxRequestBatch : Z;
  js_FilterSubjects : list string;
  js_AckPolicy : AckPolicy;
  js_InactiveThreshold : Duration;
  js_DeliverPolicy : DeliverPolicy;
  js_OptStartTime : option Time
}.

Definition set_delivery (p : DeliverPolicy) (t : option Time)
  (j : JsConsumerConfig) : JsConsumerConfig :=
  mkJsConfig (js_Durable j) (js_MaxAckPending j) (js_MaxDeliver j)
             (js_AckWait j) (js_MaxRequestBatch j) (js_FilterSubjects j)
             (js_AckPolicy j) (js_InactiveThreshold j) p t.

(** The request [CreateConsumer] sends to the stream. *)
Inductive JsRequest : Type :=
  | JsCreate (cfg : JsConsumerConfig)    (* js.CreateConsumer *)
  | JsUpdate (cfg : JsConsumerConfig).   (* js.UpdateConsumer *)

Record CredentialInfo : Type := mkInfo {
  info_companyIDs : list string;
  info_companyID : string;
  info_sessionID : string
}.

(** What the NATS side answers during [CreateConsumer]:
    [NewNatsConnection], [jetstream.New], the lookup [js.Consumer] (the
    cached configuration of the durable consumer, or an error),
    [js.CreateConsumer], [js.UpdateConsumer], and [time.Now()]. *)
Record JetStreamEnv : Type := mkEnv {
  env_NewNatsConnection : error + CredentialInfo;
  env_jetstream_New : option error;
  env_Consumer : error + JsConsumerConfig;
  env_CreateConsumer : option error;
  env_UpdateConsumer : option error;
  env_now : Time
}.

(** ** Externally visible actions *)

Inductive Action : Type :=
  | EAck (m : Msg)                 (* m.Ack() *)
  | ENak (m : Msg)                 (* m.Nak() *)
  | EProcess (e : DBChangeEvent)   (* c.driver.Process(log, e) *)
  | EFlush                         (* c.driver.Flush(log) *)
  | EEmit (err : error)            (* c.subError <- err *)
  | EDrain (s : ConsumeContext)    (* c.subscriber.Drain() *)
  | EConsume                       (* c.jsconn.Consume(...) *)
  | EConnClose.                    (* c.conn.Close() *)

Definition is_ack (a : Action) : bool :=
  match a with EAck _ => true | _ => false end.
Definition is_nak (a : Action) : bool :=
  match a with ENak _ => true | _ => false end.
Definition is_process (a : Action) : bool :=
  match a with EProcess _ => true | _ => false end.
Definition is_flush (a : Action) : bool :=
  match a with EFlush => true | _ => false end.
Definition is_emit (a : Action) : bool :=
  match a with EEmit _ => true | _ => false end.

(** ** The consumer *)

Section Consumer.

Context {D : Type} `{Driver D}.

(** [json.Unmarshal(buf, &evt)] on the message payload. *)
Variable unmarshal : string -> error + DBChangeEvent.

(** The fields of [Consumer] that the dispatcher, [Pause] and [Unpause]
    read or write.  [driver] holds the state of the driver object behind
    the interface value ([None] is the nil interface); the error channel
    [subError] appears as the [EEmit] actions sent on it. *)
Record Consumer : Type := mkConsumer {
  max : Z;
  driver : option D;
  conn_open : bool;
  subscriber : option ConsumeContext;
  pending : list Msg;
  started : option Time;
  pendingStarted : option Time;
  pauseStarted : option Time;
  stopping : bool;
  sessionID : string;
  tableTimestamps : option (gmap string (option Time));
  validator : option SchemaValidator
}.

Definition set_pending (p : list Msg) (ps : option Time) (c : Consumer)
  : Consumer :=
  mkConsumer (max c) (driver c) (conn_open c) (subscriber c) p (started c)
             ps (pauseStarted c) (stopping c) (sessionID c)
             (tableTimestamps c) (validator c).

Definition set_driver (d : D) (c : Consumer) : Consumer :=
  mkConsumer (max c) (Some d) (conn_open c) (subscriber c) (pending c)
             (started c) (pendingStarted c) (pauseStarted c) (stopping c)
             (sessionID c) (tableTimestamps c) (validator c).

Definition set_subscriber (s : option ConsumeContext) (ps : option Time)
  (c : Consumer) : Consumer :=
  mkConsumer (max c) (driver c) (conn_open c) s (pending c) (started c)
             (pendingStarted c) ps (stopping c) (sessionID c)
             (tableTimestamps c) (validator c).

Definition set_conn_open (b : bool) (c : Consumer) : Consumer :=
  mkConsumer (max c) (driver c) b (subscriber c) (pending c) (started c)
             (pendingStarted c) (pauseStarted c) (stopping c) (sessionID c)
             (tableTimestamps c) (validator c).

(** [nackEverything]: nak every pending message (a failing nak is only
    logged), then reset [pending] and [pendingStarted]. *)
Definition nackEverything (c : Consumer) : Consumer * list Action :=
  (set_pending [] None c, map ENak (pending c)).

(** [handleError]: nak everything, then send the error on [subError]. *)
Definition handleError (err : error) (c : Consumer)
  : Consumer * list Action :=
  let '(c1, t1) := nackEverything c in
  (c1, t1 ++ [EEmit err]).

(** The ack loop of [flush]: [for _, m := range c.pending], stopping at
    the first failing ack.  Returns the acks issued and whether one
    failed. *)
Fixpoint ack_loop (ms : list Msg) : list Action * bool :=
  match ms with
  | [] => ([], false)
  | m :: rest =>
      match msg_Ack m with
      | Some _ => ([EAck m], true)
      | None => let '(t, failed) := ack_loop rest in (EAck m :: t, failed)
      end
  end.

(** [flush]: returns whether the dispatcher must stop. *)
Definition flush (c : Consumer) : bool * Consumer * list Action :=
  match driver c with
  | None => (stopping c, c, [])
  | Some d =>
      let '(d1, r) := Flush d in
      let c0 := set_driver d1 c in
      match r with
      | Some err =>
          if errors_Is err ErrDriverStopped then
            let '(c1, t1) := nackEverything c0 in
            (true, c1, EFlush :: t1)
          else
            let '(c1, t1) := handleError err c0 in
            (true, c1, EFlush :: t1)
      | None =>
          let '(acks, failed) := ack_loop (pending c0) in
          if failed then
            let '(c1, t1) := nackEverything c0 in
            (true, c1, EFlush :: acks ++ t1)
          else
            (stopping c0, set_pending [] None c0, EFlush :: acks)
      end
  end.

(** [shouldSkip]: the watermark test, then the optional validator.  The
    event is passed by pointer, so the (possibly updated) event is
    returned with the verdict. *)
Definition shouldSkip (c : Consumer) (evt : DBChangeEvent)
  : bool * DBChangeEvent :=
  let by_watermark :=
    match tableTimestamps c with
    | Some stamps =>
        let eventTimestamp := UnixMilli (Timestamp evt) in
        match stamps !! Table evt with
        | Some (Some tableTimestamp) => Before_ eventTimestamp tableTimestamp
        | _ => false
        end
    | None => false
    end in
  if by_watermark then (true, evt)
  else match validator c with
       | Some v =>
           let r := v evt in
           match v_err r with
           | Some _ => (true, evt)
           | None =>
               if negb (v_found r) then (true, evt)
               else if negb (v_valid r) then (true, evt)
               else if decide (v_path r = EmptyString) then (false, evt)
               else (false, set_SchemaValidatedPath (v_path r) evt)
           end
       | None => (false, evt)
       end.

(** The removal loop of the skip path: drop the first element [m] with
    [m == msg]. *)
Fixpoint remove_msg (msg : Msg) (l : list Msg) : list Msg :=
  match l with
  | [] => []
  | m :: rest => if msg_eqb m msg then rest else m :: remove_msg msg rest
  end.

(** What the [select] of one loop iteration picks, with the clock
    readings the iteration may take: [t_now] for [time.Now()] when
    [pendingStarted] is set, [t_catchup] and [t_max] for the two
    [time.Since] of the message branch, [t_min] for the one of the
    [default] branch; [done] is the inner [select] on [ctx.Done()]. *)
Inductive Input : Type :=
  | InDone
  | InMsg (msg : Msg) (t_now t_catchup t_max : Time)
  | InDefault (t_min : Time) (done : bool).

Inductive Outcome : Type :=
  | Continue                 (* next iteration *)
  | Return                   (* the goroutine returns *)
  | PanicNilDriver           (* method call on the nil driver *)
  | PanicNilPendingStarted.  (* [*c.pendingStarted] with a nil pointer *)

#[global] Instance Outcome_eq_dec : EqDecision Outcome.
Proof. solve_decision. Defined.

(** [time.Since( *p )] for a pointer [p]: [None] is the nil dereference. *)
Definition Since (reading : Time) (p : option Time) : option Duration :=
  match p with
  | Some t => Some (reading - t)
  | None => None
  end.

(** The flush call sites of the loop: [if c.flush(log) { return };
    continue]. *)
Definition flush_then (c : Consumer) (before : list Action)
  : Outcome * Consumer * list Action :=
  let '(stop, c1, t) := flush c in
  (if stop then Return else Continue, c1, before ++ t).

(** One iteration of the [for { select { ... } }] loop of [bufferer]. *)
Definition bufferer_step (i : Input) (c : Consumer)
  : Outcome * Consumer * list Action :=
  match i with
  | InDone =>
      let '(c1, t) := nackEverything c in (Return, c1, t)
  | InMsg msg t_now t_catchup t_max =>
      match msg_Metadata msg with
      | inl err => let '(c1, t) := handleError err c in (Return, c1, t)
      | inr md =>
          let c1 := set_pending (pending c ++ [msg]) (pendingStarted c) c in
          match unmarshal (msg_Data msg) with
          | inl err => let '(c2, t) := handleError err c1 in (Return, c2, t)
          | inr evt0 =>
              let '(skip, evt1) := shouldSkip c1 evt0 in
              if skip then
                (Continue,
                 set_pending (remove_msg msg (pending c1)) (pendingStarted c1) c1,
                 [EAck msg])
              else
                let evt := set_NatsMsg msg evt1 in
                match driver c1 with
                | None => (PanicNilDriver, c1, [])
                | Some d =>
                    let '(d1, (flush_hint, perr)) := Process d evt in
                    let c2 := set_driver d1 c1 in
                    match perr with
                    | Some err =>
                        let '(c3, t) := handleError err c2 in
                        (Return, c3, EProcess evt :: t)
                    | None =>
                        let maxsize :=
                          if MaxBatchSize d1 <=? 0 then max c2
                          else MaxBatchSize d1 in
                        if flush_hint
                           || (maxsize <=? Z.of_nat (length (pending c2)))
                        then flush_then c2 [EProcess evt]
                        else
                          let c3 :=
                            match pendingStarted c2 with
                            | None => set_pending (pending c2) (Some t_now) c2
                            | Some _ => c2
                            end in
                          let catchup :=
                            if uint64 (max c3) <? NumPending md then
                              match Since t_catchup (pendingStarted c3) with
                              | Some d => Some (d <? maxPendingLatency * 2)
                              | None => None
                              end
                            else Some false in
                          match catchup with
                          | None => (PanicNilPendingStarted, c3, [EProcess evt])
                          | Some true => (Continue, c3, [EProcess evt])
                          | Some false =>
                              let full :=
                                if max c3 <=? Z.of_nat (length (pending c3))
                                then Some true
                                else
                                  match Since t_max (pendingStarted c3) with
                                  | Some d => Some (maxPendingLatency <=? d)
                                  | None => None
                                  end in
                              match full with
                              | None =>
                                  (PanicNilPendingStarted, c3, [EProcess evt])
                              | Some true => flush_then c3 [EProcess evt]
                              | Some false => (Continue, c3, [EProcess evt])
                              end
                          end
                    end
                end
          end
      end
  | InDefault t_min done =>
      let count := Z.of_nat (length (pending c)) in
      let idle :=
        if (0 <? count) && (count <? max c) then
          match Since t_min (pendingStarted c) with
          | Some d => Some (minPendingLatency <=? d)
          | None => None
          end
        else Some false in
      match idle with
      | None => (PanicNilPendingStarted, c, [])
      | Some true => flush_then c []
      | Some false =>
          if 0 <? count then (Continue, c, [])
          else if done then
            let '(c1, t) := nackEverything c in (Return, c1, t)
          else (Continue, c, [])
      end
  end.

(** The loop: iterations are run for as long as they say [Continue]; the
    inputs are what the environment presents to the successive [select]s.
    Running out of inputs leaves the goroutine blocked in [Continue]. *)
Fixpoint bufferer (inputs : list Input) (c : Consumer)
  : Outcome * Consumer * list Action :=
  match inputs with
  | [] => (Continue, c, [])
  | i :: rest =>
      match bufferer_step i c with
      | (Continue, c1, t1) =>
          let '(o, c2, t2) := bufferer rest c1 in (o, c2, t1 ++ t2)
      | r => r
      end
  end.

(** [Pause]; [None] is the panic of [c.subscriber.Drain()] on a nil
    subscriber. *)
Definition Pause (t_now : Time) (c : Consumer)
  : option (Consumer * list Action) :=
  match subscriber c with
  | None => None
  | Some s => Some (set_subscriber None (Some t_now) c, [EDrain s])
  end.

(** [Unpause]; [consume] is what [c.jsconn.Consume(...)] returns. *)
Definition Unpause (consume : error + ConsumeContext) (c : Consumer)
  : option error * Consumer * list Action :=
  match subscriber c with
  | Some _ => (Some (ErrOther "consumer already started"), c, [])
  | None =>
      match consume with
      | inl err =>
          (Some (ErrWrap "error starting jetstream consumer" err),
           set_conn_open false c, [EConsume; EConnClose])
      | inr sub => (None, set_subscriber (Some sub) None c, [EConsume])
      end
  end.

(** [ConsumerConfig], the options [CreateConsumer] reads (prefixed
    [cfg_]). *)
Record ConsumerConfig : Type := mkConfig {
  cfg_URL : string;
  cfg_Credentials : string;
  cfg_Suffix : string;
  cfg_MaxAckPending : Z;
  cfg_MaxPendingBuffer : Z;
  cfg_Driver : option D;
  cfg_ExportTableTimestamps : option (gmap string (option Time));
  cfg_DeliverAll : bool;
  cfg_SchemaValidator : option SchemaValidator
}.

(** The body of the loop that looks for the earliest timestamp:
    [if ts != nil && (startAt == nil || ts.Before( *startAt )) { startAt = ts }]. *)
Definition earliest_step (startAt ts : option Time) : option Time :=
  match ts with
  | Some t =>
      match startAt with
      | None => Some t
      | Some s => if Before_ t s then Some t else startAt
      end
  | None => startAt
  end.

(** [for _, ts := range config.ExportTableTimestamps], over the entries in
    the order the iteration visits them. *)
Definition earliest (entries : list (string * option Time)) : option Time :=
  foldl (fun startAt kv => earliest_step startAt kv.2) None entries.

(** [CreateConsumer].  The result is the error returned, or the consumer
    together with the request that was sent for the durable consumer. *)
Definition CreateConsumer (env : JetStreamEnv) (config : ConsumerConfig)
  : error + (Consumer * JsRequest) :=
  match env_NewNatsConnection env with
  | inl err => inl err
  | inr info =>
      let startAt :=
        match cfg_ExportTableTimestamps config with
        | Some stamps => earliest (map_to_list stamps)
        | None => None
        end in
      let drv :=
        match cfg_Driver config with
        | Some d =>
            match SetSessionID with
            | Some set => Some (set d (info_sessionID info))
            | None => Some d
            end
        | None => None
        end in
      let consumer :=
        mkConsumer (cfg_MaxAckPending config) drv true None []
                   (Some (env_now env)) None None false (info_sessionID info)
                   (cfg_ExportTableTimestamps config)
                   (cfg_SchemaValidator config) in
      match env_jetstream_New env with
      | Some err => inl (ErrWrap "error creating jetstream connection" err)
      | None =>
          let suffix :=
            if decide (cfg_Suffix config = EmptyString) then EmptyString
            else "-" +:+ cfg_Suffix config in
          let name := "eds-server-" +:+ info_companyID info +:+ suffix in
          let subjects :=
            map (fun companyID =>
                   "dbchange.*.*." +:+ companyID +:+ ".*.PUBLIC.>")
                (info_companyIDs info) in
          let jsConfig :=
            mkJsConfig name (cfg_MaxAckPending config) 20
                       (5 * 60 * 1000000000) (cfg_MaxPendingBuffer config)
                       subjects AckExplicitPolicy
                       (3 * 24 * 3600 * 1000000000)
                       DeliverAllPolicy None in
          match env_Consumer env with
          | inl err =>
              if negb (errors_Is err ErrConsumerNotFound) then
                inl (ErrWrap "error getting jetstream consumer" err)
              else
                let jsConfig1 :=
                  if cfg_DeliverAll config then
                    set_delivery DeliverAllPolicy (js_OptStartTime jsConfig)
                                 jsConfig
                  else match startAt with
                       | Some t =>
                           set_delivery DeliverByStartTimePolicy (Some t)
                                        jsConfig
                       | None =>
                           set_delivery DeliverNewPolicy
                                        (js_OptStartTime jsConfig) jsConfig
                       end in
                match env_CreateConsumer env with
                | Some err =>
                    inl (ErrWrap "error creating jetstream consumer" err)
                | None => inr (consumer, JsCreate jsConfig1)
                end
          | inr cached =>
              let jsConfig1 :=
                set_delivery (js_DeliverPolicy cached) (js_OptStartTime cached)
                             jsConfig in
              match env_UpdateConsumer env with
              | Some err =>
                  inl (ErrWrap "error updating jetstream consumer" err)
              | None => inr (consumer, JsUpdate jsConfig1)
              end
          end
      end
  end.

(** ** Notions used to state the properties *)

(** The batch cap as the specification words it: [driver.MaxBatchSize()]
    when that is positive, [maxAckPending] otherwise. *)
Definition maxBatch (c : Consumer) (d : D) : Z :=
  if 0 <? MaxBatchSize d then MaxBatchSize d else max c.

(** The loop invariant on the batch clock: a non-empty batch has its
    [pendingStarted] set. *)
Definition batch_started (c : Consumer) : Prop :=
  pending c <> [] -> pendingStarted c <> None.

(** Two consumers that differ at most in [subscriber] and
    [pauseStarted]. *)
Definition same_but_subscription (c c' : Consumer) : Prop :=
  max c' = max c /\ driver c' = driver c /\ conn_open c' = conn_open c
  /\ pending c' = pending c /\ started c' = started c
  /\ pendingStarted c' = pendingStarted c /\ stopping c' = stopping c
  /\ sessionID c' = sessionID c /\ tableTimestamps c' = tableTimestamps c
  /\ validator c' = validator c.

(** [w] is the earliest watermark of the table-timestamp map. *)
Definition is_earliest_watermark (stamps : gmap string (option Time))
  (w : Time) : Prop :=
  (exists table, stamps !! table = Some (Some w))
  /\ forall table w', stamps !! table = Some (Some w') -> w <= w'.

(** The configuration carries no watermark at all: no map, or a map whose
    entries are all nil. *)
Definition no_watermark (o : option (gmap string (option Time))) : Prop :=
  forall stamps table w, o = Some stamps -> stamps !! table <> Some (Some w).

End Consumer.

Arguments Consumer D : clear implicits.
Arguments ConsumerConfig D : clear implicits.

(** ** A scripted driver

    A driver whose answers are read off two scripts, used to run the
    dispatcher on concrete inputs: [sd_process] lists what the successive
    calls of [Process] return and [sd_flush] what the successive calls of
    [Flush] return (once a script is exhausted the call succeeds with no
    flush hint). *)
Record ScriptDriver : Type := mkScript {
  sd_max : Z;
  sd_process : list (bool * option error);
  sd_flush : list (option error);
  sd_session : string
}.

#[global] Instance ScriptDriver_Driver : Driver ScriptDriver := {|
  MaxBatchSize d := sd_max d;
  Process d _ :=
    match sd_process d with
    | [] => (d, (false, None))
    | r :: rest => (mkScript (sd_max d) rest (sd_flush d) (sd_session d), r)
    end;
  Flush d :=
    match sd_flush d with
    | [] => (d, None)
    | r :: rest => (mkScript (sd_max d) (sd_process d) rest (sd_session d), r)
    end;
  SetSessionID :=
    Some (fun d s => mkScript (sd_max d) (sd_process d) (sd_flush d) s)
|}.

(** Sample events and payloads.  The decoder used on concrete inputs
    knows three payloads, two events of table [orders] on either side of
    the watermark 1_700_000_000_000 ms and one of table [customers]; any
    other payload (such as the truncated ["{operation:"]) fails to
    decode. *)
Definition sample_event (table : string) (ts : Z) : DBChangeEvent :=
  mkEvent "evt" "INSERT" table [table; "pk"] ts "1" "v1" "" "{}" [] false
          None None.

Definition sample_unmarshal (s : string) : error + DBChangeEvent :=
  if decide (s = "orders@1699999999999") then
    inr (sample_event "orders" 1699999999999)
  else if decide (s = "orders@1700000000001") then
    inr (sample_event "orders" 1700000000001)
  else if decide (s = "customers@1700000000002") then
    inr (sample_event "customers" 1700000000002)
  else inl (ErrOther "unexpected end of JSON input").

Definition sample_msg (ptr : nat) (data : string) (ack : option error) : Msg :=
  mkMsg ptr data (inr (mkMetadata (Z.of_nat ptr) (Z.of_nat ptr) 1 0)) ack None.

Definition sample_consumer (maxAck : Z) (d : ScriptDriver)
  (p : list Msg) (ps : option Time) : Consumer ScriptDriver :=
  mkConsumer maxAck (Some d) true (Some 7%nat) p (Some 0) ps None false
             "session" None None.

Definition idle_driver : ScriptDriver := mkScript 0 [] [] "".

Definition msg_old : Msg := sample_msg 1 "orders@1699999999999" None.
Definition msg_new : Msg := sample_msg 2 "orders@1700000000001" None.
Definition msg_cust : Msg := sample_msg 3 "customers@1700000000002" None.
Definition msg_bad_ack : Msg :=
  sample_msg 4 "customers@1700000000002" (Some (ErrOther "nats: timeout")).

(** The watermarks of scenario 2, as times. *)
Definition sample_stamps : gmap string (option Time) :=
  {[ "orders" := Some (UnixMilli 1700000000000) ]}.

Definition two_stamps : gmap string (option Time) :=
  <[ "orders" := Some (UnixMilli 1700000000000) ]>
    {[ "customers" := Some (UnixMilli 1600000000000) ]}.

Definition with_stamps (c : Consumer ScriptDriver) : Consumer ScriptDriver :=
  mkConsumer (max c) (driver c) (conn_open c) (subscriber c) (pending c)
             (started c) (pendingStarted c) (pauseStarted c) (stopping c)
             (sessionID c) (Some sample_stamps) (validator c).

(** A validator that fails on every event. *)
Definition failing_validator : SchemaValidator :=
  fun _ => mkValidate false false "" (Some (ErrOther "schema unreadable")).

Definition with_validator (v : SchemaValidator) (c : Consumer ScriptDriver)
  : Consumer ScriptDriver :=
  mkConsumer (max c) (driver c) (conn_open c) (subscriber c) (pending c)
             (started c) (pendingStarted c) (pauseStarted c) (stopping c)
             (sessionID c) (tableTimestamps c) (Some v).

Definition sample_info : CredentialInfo :=
  mkInfo ["c1"; "c2"] "acme" "session".

Definition sample_config (deliverAll : bool)
  (stamps : option (gmap string (option Time))) : ConsumerConfig ScriptDriver :=
  mkConfig "nats://upstream" "creds" "w1" 3 64 (Some idle_driver) stamps
           deliverAll None.

(** The durable consumer does not exist yet. *)
Definition env_fresh : JetStreamEnv :=
  mkEnv (inr sample_info) None
        (inl (ErrWrap "nats" ErrConsumerNotFound)) None None 1000.

(** The durable consumer exists, created earlier with deliver-new. *)
Definition cached_config : JsConsumerConfig :=
  mkJsConfig "eds-server-acme-w1" 1 20 0 1 [] AckExplicitPolicy 0
             DeliverNewPolicy None.

Definition env_existing : JetStreamEnv :=
  mkEnv (inr sample_info) None (inr cached_config) None None 1000.

(** ** Runs of the dispatcher, [Start], [NewConsumer] and the supervisor

    The notions used to speak about whole runs of the loop, the two
    remaining entry points of the consumer and the pause handling of the
    supervisor that calls [Pause] and [Unpause]. *)

Section Runs.

Context {D : Type} `{Driver D}.
Variable unmarshal : string -> error + DBChangeEvent.

(** The inputs a run of the loop actually takes: those up to and including
    the first iteration that does not say [Continue]. *)
Fixpoint taken (inputs : list Input) (c : Consumer D) : list Input :=
  match inputs with
  | [] => []
  | i :: rest =>
      match bufferer_step unmarshal i c with
      | (Continue, c1, _) => i :: taken rest c1
      | _ => [i]
      end
  end.

(** The message an input delivers, if any. *)
Definition input_msg (i : Input) : option Msg :=
  match i with
  | InMsg msg _ _ _ => Some msg
  | _ => None
  end.

(** The message an input delivers, when its [Metadata()] can be read. *)
Definition input_readable_msg (i : Input) : option Msg :=
  match i with
  | InMsg msg _ _ _ =>
      match msg_Metadata msg with
      | inr _ => Some msg
      | inl _ => None
      end
  | _ => None
  end.

(** The message object an action settles (acks or naks). *)
Definition settled_ptr (a : Action) : option nat :=
  match a with
  | EAck m | ENak m => Some (msg_ptr m)
  | _ => None
  end.

(** The message whose event an action hands to the driver. *)
Definition processed_msg (a : Action) : option Msg :=
  match a with
  | EProcess e => NatsMsg e
  | _ => None
  end.

(** The batch is empty or strictly below the cap of the current driver. *)
Definition below_cap (c : Consumer D) : Prop :=
  forall d, driver c = Some d ->
    pending c = [] \/ Z.of_nat (length (pending c)) < maxBatch c d.

(** An input of the [default] branch. *)
Definition is_idle (i : Input) : bool :=
  match i with
  | InDefault _ _ => true
  | _ => false
  end.

(** [fmt.Errorf("...: %w", ...)] applied repeatedly, outermost first. *)
Fixpoint wrap_all (ctxs : list string) (e : error) : error :=
  match ctxs with
  | [] => e
  | ctx :: rest => ErrWrap ctx (wrap_all rest e)
  end.

(** [Start]: refuse a consumer that holds a subscription, subscribe with
    [Unpause], then start the dispatcher and heartbeat goroutines (which is
    what the absence of an error stands for). *)
Definition Start (consume : error + ConsumeContext) (c : Consumer D)
  : option error * Consumer D * list Action :=
  match subscriber c with
  | Some _ => (Some (ErrOther "consumer already started"), c, [])
  | None =>
      let '(err, c1, t) := Unpause consume c in
      match err with
      | Some e => (Some e, c1, t)
      | None => (None, c1, t)
      end
  end.

(** [NewConsumer]: [CreateConsumer] then [Start].  Returns the error or the
    started consumer, with the request sent for the durable consumer (if
    that point was reached) and the actions performed. *)
Definition NewConsumer (env : JetStreamEnv) (consume : error + ConsumeContext)
  (config : ConsumerConfig D)
  : (error + Consumer D) * option JsRequest * list Action :=
  match CreateConsumer env config with
  | inl err => (inl err, None, [])
  | inr (consumer, req) =>
      match Start consume consumer with
      | (Some err, _, t) => (inl err, Some req, t)
      | (None, c1, t) => (inr c1, Some req, t)
      end
  end.

(** What handling one value received on the supervisor's [pauseCh] leads
    to: the loop goes on, the goroutine returns (a failed [Unpause]), or
    [Pause] panics. *)
Inductive Signalled : Type :=
  | SigContinue
  | SigReturn
  | SigPanic.

(** The [case pause := <-pauseCh] branch of the supervisor's loop, on its
    [paused] flag and the consumer; [t_now] and [consume] are what the
    clock and the stream answer if [Pause] or [Unpause] is called. *)
Definition on_pause_signal (pause : bool) (t_now : Time)
  (consume : error + ConsumeContext) (paused : bool) (c : Consumer D)
  : Signalled * bool * Consumer D * list Action :=
  if pause then
    if negb paused then
      match Pause t_now c with
      | Some (c1, t) => (SigContinue, true, c1, t)
      | None => (SigPanic, true, c, [])
      end
    else (SigContinue, paused, c, [])
  else
    if paused then
      let '(err, c1, t) := Unpause consume c in
      match err with
      | Some _ => (SigReturn, false, c1, t)
      | None => (SigContinue, false, c1, t)
      end
    else (SigContinue, paused, c, []).

(** The supervisor's loop restricted to the values received on [pauseCh],
    for as long as it goes on. *)
Fixpoint on_pause_signals
  (signals : list (bool * Time * (error + ConsumeContext)))
  (paused : bool) (c : Consumer D)
  : Signalled * bool * Consumer D * list Action :=
  match signals with
  | [] => (SigContinue, paused, c, [])
  | (pause, t_now, consume) :: rest =>
      match on_pause_signal pause t_now consume paused c with
      | (SigContinue, paused1, c1, t1) =>
          let '(o, paused2, c2, t2) := on_pause_signals rest paused1 c1 in
          (o, paused2, c2, t1 ++ t2)
      | r => r
      end
  end.

(** The event is older than the watermark of its table. *)
Definition before_watermark (c : Consumer D) (evt : DBChangeEvent) : Prop :=
  exists (stamps : gmap string (option Time)) (W : Time),
    tableTimestamps c = Some stamps
    /\ stamps !! Table evt = Some (Some W)
    /\ UnixMilli (Timestamp evt) < W.

(** The configuration a request carries. *)
Definition request_config (r : JsRequest) : JsConsumerConfig :=
  match r with
  | JsCreate cfg | JsUpdate cfg => cfg
  end.

(** The supervisor's [paused] flag says whether the consumer holds a
    subscription. *)
Definition flag_matches (paused : bool) (c : Consumer D) : Prop :=
  paused = true <-> subscriber c = None.

(** ** [Stop] running beside the dispatcher

    [Stop] is called on the supervisor's goroutine while the dispatcher
    goroutine is still in its loop; [flush] takes [c.lock], the reads of
    the loop do not. *)

Definition set_stopping (b : bool) (c : Consumer D) : Consumer D :=
  mkConsumer (max c) (driver c) (conn_open c) (subscriber c) (pending c)
             (started c) (pendingStarted c) (pauseStarted c) b (sessionID c)
             (tableTimestamps c) (validator c).

(** The first statements of [Stop], which run before [c.cancel()] and
    [c.waitGroup.Wait()]: [c.stopping = true] under the lock, then
    [c.flush(c.logger)], whose verdict is dropped. *)
Definition Stop_flush (c : Consumer D) : Consumer D * list Action :=
  let '(_, c1, t) := flush (set_stopping true c) in (c1, t).

(** The [default] branch statement by statement: first
    [count := len(c.pending)] ... *)
Definition default_read_count (c : Consumer D) : Z :=
  Z.of_nat (length (pending c)).

(** ... then the rest of the branch, which works with that [count] and
    with the consumer as it is when [*c.pendingStarted] is read. *)
Definition default_with_count (count : Z) (t_min : Time) (done : bool)
  (c : Consumer D) : Outcome * Consumer D * list Action :=
  let idle :=
    if (0 <? count) && (count <? max c) then
      match Since t_min (pendingStarted c) with
      | Some d => Some (minPendingLatency <=? d)
      | None => None
      end
    else Some false in
  match idle with
  | None => (PanicNilPendingStarted, c, [])
  | Some true => flush_then c []
  | Some false =>
      if 0 <? count then (Continue, c, [])
      else if done then
        let '(c1, t) := nackEverything c in (Return, c1, t)
      else (Continue, c, [])
  end.

(** The [default] branch with a step [other] of another goroutine landing
    between the two. *)
Definition default_branch_interleaved
  (other : Consumer D -> Consumer D * list Action)
  (t_min : Time) (done : bool) (c : Consumer D)
  : Outcome * Consumer D * list Action :=
  let count := default_read_count c in
  let '(c1, t1) := other c in
  let '(o, c2, t2) := default_with_count count t_min done c1 in
  (o, c2, t1 ++ t2).

End Runs.

(** More sample data: what [CreateConsumer] builds from [env_fresh] and a
    configuration without watermarks; a message whose metadata cannot be
    read, one whose payload is truncated, one delivered while 5000 others
    wait on the stream; a driver with a cap of 100. *)
Definition created_consumer : Consumer ScriptDriver :=
  mkConsumer 3 (Some (mkScript 0 [] [] "session")) true None [] (Some 1000)
             None None false "session" None None.

Definition created_request : JsRequest :=
  JsCreate
    (mkJsConfig "eds-server-acme-w1" 3 20 300000000000 64
                ["dbchange.*.*.c1.*.PUBLIC.>"; "dbchange.*.*.c2.*.PUBLIC.>"]
                AckExplicitPolicy 259200000000000 DeliverNewPolicy None).

Definition msg_no_meta : Msg :=
  mkMsg 5 "orders@1700000000001" (inl (ErrOther "nats: no metadata")) None
        None.

Definition msg_garbled : Msg := sample_msg 6 "{operation:" None.

Definition msg_backlog : Msg :=
  mkMsg 7 "orders@1700000000001" (inr (mkMetadata 7 7 1 5000)) None None.

Definition wide_driver : ScriptDriver := mkScript 100 [] [] "".

(** * Properties *)

Section Properties.

Context {D : Type} `{Driver D}.
Variable unmarshal : string -> error + DBChangeEvent.

Implicit Types (c : Consumer D) (m msg : Msg) (t : list Action).

(** ** The ack loop *)

Lemma ack_loop_all_ok (ms : list Msg) :
  Forall (fun m => msg_Ack m = None) ms ->
  ack_loop ms = (map EAck ms, false).
Proof.
  induction 1 as [|m ms Hm _ IH]; simpl; [done|].
  by rewrite Hm, IH.
Qed.

(** The acks are issued in the order of the batch: they are the acks of a
    prefix of it, the whole batch when none fails. *)
Lemma ack_loop_prefix (ms : list Msg) :
  exists k : nat,
    (ack_loop ms).1 = map EAck (take k ms)
    /\ ((ack_loop ms).2 = false -> take k ms = ms).
Proof.
  induction ms as [|m ms [k [IH1 IH2]]]; simpl.
  - by exists 0%nat.
  - destruct (msg_Ack m) eqn:Hm.
    + by exists 1%nat.
    + destruct (ack_loop ms) as [t failed] eqn:Hl. simpl in *.
      exists (S k). simpl. rewrite IH1. split; [done|].
      intros Hf. by rewrite (IH2 Hf).
Qed.

Lemma ack_loop_failed (ms : list Msg) :
  (ack_loop ms).2 = true <-> Exists (fun m => msg_Ack m <> None) ms.
Proof.
  induction ms as [|m ms IH]; simpl.
  - split; [done | by inversion 1].
  - destruct (msg_Ack m) eqn:Hm; simpl.
    + split; [|done]. intros _. left. by rewrite Hm.
    + destruct (ack_loop ms) as [t failed]. simpl in *. rewrite IH.
      split; [by right|]. inversion 1; [congruence | done].
Qed.


(** ** [flush] *)

(** Whatever [flush] does once a driver is present, it leaves the batch
    empty and [pendingStarted] unset. *)
Lemma flush_resets c (d : D) :
  driver c = Some d ->
  pending (flush c).1.2 = [] /\ pendingStarted (flush c).1.2 = None.
Proof.
  intros Hd. unfold flush, handleError, nackEverything. rewrite Hd.
  destruct (Flush d) as [d1 [err|]]; simpl.
  - by destruct (errors_Is err ErrDriverStopped).
  - destruct (ack_loop (pending c)) as [acks [|]]; done.
Qed.

(** What [flush] does when [driver.Flush] succeeds and an ack fails: the
    acks issued so far, then a nak for every message of the batch; nothing
    is sent on the error channel. *)
Lemma flush_ack_failure c (d d1 : D) :
  driver c = Some d -> Flush d = (d1, None) ->
  (ack_loop (pending c)).2 = true ->
  flush c
  = (true, set_pending [] None (set_driver d1 c),
     EFlush :: (ack_loop (pending c)).1 ++ map ENak (pending c)).
Proof.
  intros Hd Hf Ha. unfold flush, nackEverything. rewrite Hd, Hf. simpl.
  destruct (ack_loop (pending c)) as [acks failed]. simpl in *. by subst.
Qed.

(** C1. When [driver.Flush] returns an error, [flush] acks no message of
    the pending batch and naks every one of them, in order; for the
    "driver stopped" sentinel nothing is sent on the error channel, for any
    other error the error is sent after the naks; [flush] tells the
    dispatcher to stop. *)
Theorem flush_error_naks_all c (d d1 : D) (err : error) :
  driver c = Some d ->
  Flush d = (d1, Some err) ->
  exists c',
    flush c
    = (true, c',
       EFlush :: map ENak (pending c)
         ++ (if errors_Is err ErrDriverStopped then [] else [EEmit err]))
    /\ Forall (fun a => is_ack a = false) (flush c).2
    /\ (forall m, m ∈ pending c -> ENak m ∈ (flush c).2)
    /\ (errors_Is err ErrDriverStopped = true ->
        Forall (fun a => is_emit a = false) (flush c).2)
    /\ (errors_Is err ErrDriverStopped = false ->
        forall a, a ∈ (flush c).2 -> is_emit a = true -> a = EEmit err)
    /\ (errors_Is err ErrDriverStopped = false -> EEmit err ∈ (flush c).2)
    /\ pending c' = [] /\ pendingStarted c' = None.
Proof.
  intros Hd Hf.
  assert (Hflush : flush c
    = (true, set_pending [] None (set_driver d1 c),
       EFlush :: map ENak (pending c)
         ++ (if errors_Is err ErrDriverStopped then [] else [EEmit err]))).
  { unfold flush, handleError, nackEverything. rewrite Hd, Hf. simpl.
    destruct (errors_Is err ErrDriverStopped); [by rewrite app_nil_r|done]. }
  assert (Hnak : Forall (fun a => is_ack a = false /\ is_emit a = false)
                        (map ENak (pending c))).
  { apply Forall_forall. intros a Ha. apply list_elem_of_fmap in Ha.
    by destruct Ha as [m [-> _]]. }
  exists (set_pending [] None (set_driver d1 c)).
  rewrite Hflush. simpl. repeat split; try done.
  - constructor; [done|]. apply Forall_app. split.
    + eapply Forall_impl; [exact Hnak|]. by intros a [].
    + destruct (errors_Is err ErrDriverStopped); by repeat constructor.
  - intros m Hm. right. apply elem_of_app. left.
    apply list_elem_of_fmap. eauto.
  - intros ->. rewrite app_nil_r. constructor; [done|].
    eapply Forall_impl; [exact Hnak|]. by intros a [].
  - intros -> a Ha Hemit. inversion Ha as [|? ? ? Ha']; subst; [done|].
    apply elem_of_app in Ha'. destruct Ha' as [Ha'|Ha'].
    + rewrite Forall_forall in Hnak. destruct (Hnak _ Ha'). congruence.
    + by apply list_elem_of_singleton in Ha'.
  - intros ->. right. apply elem_of_app. right. by left.
Qed.

(** C5. After a successful flush ([driver.Flush] returned nil and every
    ack succeeded) the pending batch is empty and [pendingStarted] is
    unset; every message was acked, in the order of the batch. *)
Theorem flush_success_resets c (d d1 : D) :
  driver c = Some d ->
  Flush d = (d1, None) ->
  Forall (fun m => msg_Ack m = None) (pending c) ->
  exists c',
    flush c = (stopping c, c', EFlush :: map EAck (pending c))
    /\ pending c' = [] /\ pendingStarted c' = None.
Proof.
  intros Hd Hf Hok. unfold flush. rewrite Hd, Hf. simpl.
  rewrite (ack_loop_all_ok _ Hok). by eexists.
Qed.

(** ** The skip path *)

Lemma remove_msg_app_length msg (l : list Msg) :
  length (remove_msg msg (l ++ [msg])) = length l.
Proof.
  induction l as [|m l IH]; simpl.
  - unfold msg_eqb. by rewrite Nat.eqb_refl.
  - destruct (msg_eqb m msg); simpl; [|by rewrite IH].
    rewrite length_app. simpl. lia.
Qed.

(** The message just appended is a new object: removing it gives back the
    batch as it was. *)
Lemma remove_msg_app_fresh msg (l : list Msg) :
  Forall (fun m => msg_ptr m <> msg_ptr msg) l ->
  remove_msg msg (l ++ [msg]) = l.
Proof.
  induction 1 as [|m l Hm _ IH]; simpl.
  - unfold msg_eqb. by rewrite Nat.eqb_refl.
  - unfold msg_eqb at 1. apply Nat.eqb_neq in Hm. by rewrite Hm, IH.
Qed.

Lemma remove_msg_fresh_absent msg (l : list Msg) :
  Forall (fun m => msg_ptr m <> msg_ptr msg) l ->
  Forall (fun m => msg_eqb m msg = false) (remove_msg msg (l ++ [msg])).
Proof.
  intros Hl. rewrite (remove_msg_app_fresh _ _ Hl).
  eapply Forall_impl; [exact Hl|]. intros m Hm. by apply Nat.eqb_neq.
Qed.

Lemma shouldSkip_set_pending c p ps evt :
  shouldSkip (set_pending p ps c) evt = shouldSkip c evt.
Proof. reflexivity. Qed.

Lemma shouldSkip_watermark c evt (stamps : gmap string (option Z)) (W : Z) :
  tableTimestamps c = Some stamps ->
  stamps !! Table evt = Some (Some W) ->
  UnixMilli (Timestamp evt) < W ->
  shouldSkip c evt = (true, evt).
Proof.
  intros Ht Hw Hlt. unfold shouldSkip. rewrite Ht, Hw.
  unfold Before_. by rewrite (proj2 (Z.ltb_lt _ _) Hlt).
Qed.

Lemma shouldSkip_validator_error c evt (v : SchemaValidator) (e : error) :
  validator c = Some v ->
  v_err (v evt) = Some e ->
  shouldSkip c evt = (true, evt).
Proof.
  intros Hv He. unfold shouldSkip. rewrite Hv, He.
  by destruct (match tableTimestamps c with Some _ => _ | None => _ end).
Qed.

(** The iteration of the loop on a message that [shouldSkip] rejects: one
    ack, the message taken out of the batch again, next iteration. *)
Lemma bufferer_step_skip c msg md evt evt' (t_now t_catchup t_max : Z) :
  msg_Metadata msg = inr md ->
  unmarshal (msg_Data msg) = inr evt ->
  shouldSkip c evt = (true, evt') ->
  bufferer_step unmarshal (InMsg msg t_now t_catchup t_max) c
  = (Continue,
     set_pending (remove_msg msg (pending c ++ [msg])) (pendingStarted c) c,
     [EAck msg]).
Proof.
  intros Hmd Hu Hs. unfold bufferer_step.
  rewrite Hmd, Hu, shouldSkip_set_pending, Hs. reflexivity.
Qed.

(** C4. An event of a table that has a watermark [W], with a timestamp
    before [W], is acked at once and taken out of the pending batch again;
    [driver.Process] is not called (the iteration performs the ack and
    nothing else), the driver is untouched and the loop goes on.  The batch
    keeps its length, and is exactly the batch before the message arrived
    when the message is a new object. *)
Theorem watermark_event_acked_and_skipped c msg md evt
    (stamps : gmap string (option Z)) (W : Z) (t_now t_catchup t_max : Z) :
  msg_Metadata msg = inr md ->
  unmarshal (msg_Data msg) = inr evt ->
  tableTimestamps c = Some stamps ->
  stamps !! Table evt = Some (Some W) ->
  UnixMilli (Timestamp evt) < W ->
  exists c',
    bufferer_step unmarshal (InMsg msg t_now t_catchup t_max) c
    = (Continue, c', [EAck msg])
    /\ Forall (fun a => is_process a = false) [EAck msg]
    /\ driver c' = driver c
    /\ pendingStarted c' = pendingStarted c
    /\ length (pending c') = length (pending c)
    /\ (Forall (fun m => msg_ptr m <> msg_ptr msg) (pending c) ->
        pending c' = pending c
        /\ Forall (fun m => msg_eqb m msg = false) (pending c')).
Proof.
  intros Hmd Hu Ht Hw Hlt.
  eexists. split.
  - eapply bufferer_step_skip; eauto using shouldSkip_watermark.
  - simpl. repeat split.
    + by repeat constructor.
    + apply remove_msg_app_length.
    + by apply remove_msg_app_fresh.
    + by apply remove_msg_fresh_absent.
Qed.

(** C10. When a validator is configured and [Validate] returns an error
    for the event, the event is skipped like any other skipped event: the
    message is acked and taken out of the pending batch again,
    [driver.Process] is not called and nothing is sent on the error
    channel; the loop goes on. *)
Theorem validator_error_acked_and_skipped c msg md evt
    (v : SchemaValidator) (e : error) (t_now t_catchup t_max : Z) :
  msg_Metadata msg = inr md ->
  unmarshal (msg_Data msg) = inr evt ->
  validator c = Some v ->
  v_err (v evt) = Some e ->
  exists c',
    bufferer_step unmarshal (InMsg msg t_now t_catchup t_max) c
    = (Continue, c', [EAck msg])
    /\ Forall (fun a => is_process a = false /\ is_emit a = false) [EAck msg]
    /\ driver c' = driver c
    /\ pendingStarted c' = pendingStarted c
    /\ length (pending c') = length (pending c)
    /\ (Forall (fun m => msg_ptr m <> msg_ptr msg) (pending c) ->
        pending c' = pending c
        /\ Forall (fun m => msg_eqb m msg = false) (pending c')).
Proof.
  intros Hmd Hu Hv He.
  eexists. split.
  - eapply bufferer_step_skip; eauto using shouldSkip_validator_error.
  - simpl. repeat split.
    + by repeat constructor.
    + apply remove_msg_app_length.
    + by apply remove_msg_app_fresh.
    + by apply remove_msg_fresh_absent.
Qed.

(** ** The flush decision after [Process] *)



(** ** [Pause] and [Unpause] *)

(** The actions of [flush] and its verdict depend on the driver, the batch
    and the [stopping] flag only. *)
Lemma flush_frame_actions c c' :
  driver c' = driver c -> pending c' = pending c -> stopping c' = stopping c ->
  (flush c').2 = (flush c).2 /\ (flush c').1.1 = (flush c).1.1.
Proof.
  intros Hd Hp Hs. unfold flush. rewrite Hd.
  destruct (driver c) as [d|]; [|by rewrite Hs].
  destruct (Flush d) as [d1 [err|]];
    unfold handleError, nackEverything; cbn; rewrite ?Hp, ?Hs.
  - by destruct (errors_Is err ErrDriverStopped).
  - by destruct (ack_loop (pending c)) as [acks [|]].
Qed.

(** C8. From a running consumer (a subscription is held), [Pause] drains
    the subscription and does nothing else to the outside (in particular
    it does not flush), sets [pauseStarted] and, but for dropping the
    subscription handle, changes no other field; [Unpause] re-subscribes
    and clears [pauseStarted], changing no other field; whether or not the
    re-subscription succeeds, the pending batch and [pendingStarted] after
    [Pause] then [Unpause] are those before, and a flush then performs the
    same actions, on the same batch, as a flush before the pause. *)
Theorem pause_unpause_keeps_batch c (s : ConsumeContext) (t_now : Z)
    (consume : error + ConsumeContext) :
  subscriber c = Some s ->
  exists c1,
    Pause t_now c = Some (c1, [EDrain s])
    /\ same_but_subscription c c1
    /\ subscriber c1 = None /\ pauseStarted c1 = Some t_now
    /\ (forall sub, consume = inr sub ->
        Unpause consume c1 = (None, (Unpause consume c1).1.2, [EConsume])
        /\ same_but_subscription c (Unpause consume c1).1.2
        /\ subscriber (Unpause consume c1).1.2 = Some sub
        /\ pauseStarted (Unpause consume c1).1.2 = None)
    /\ pending (Unpause consume c1).1.2 = pending c
    /\ pendingStarted (Unpause consume c1).1.2 = pendingStarted c
    /\ Forall (fun a => is_flush a = false /\ is_ack a = false
                        /\ is_nak a = false)
              ([EDrain s] ++ (Unpause consume c1).2)
    /\ (flush (Unpause consume c1).1.2).2 = (flush c).2
    /\ (flush (Unpause consume c1).1.2).1.1 = (flush c).1.1.
Proof.
  intros Hs. exists (set_subscriber None (Some t_now) c).
  unfold Pause. rewrite Hs. split; [done|].
  split; [by repeat split|]. split; [done|]. split; [done|].
  unfold Unpause. cbn [subscriber set_subscriber].
  split.
  { intros sub ->. cbn. by repeat split. }
  destruct consume as [err|sub]; cbn [fst snd];
    (split; [done|]); (split; [done|]);
    (split; [by repeat constructor|]);
    by apply flush_frame_actions.
Qed.

(** ** The batch clock is set whenever it is read *)

Lemma batch_started_empty c : pending c = [] -> batch_started c.
Proof. intros Hp Hne. by rewrite Hp in Hne. Qed.

Lemma batch_started_set c : pendingStarted c <> None -> batch_started c.
Proof. by intros Hps _. Qed.

Lemma flush_batch_started c :
  batch_started c \/ driver c <> None -> batch_started (flush c).1.2.
Proof.
  intros Hc. destruct (driver c) as [d|] eqn:Hd.
  - apply batch_started_empty. by apply (flush_resets c d).
  - unfold flush. rewrite Hd. simpl. by destruct Hc.
Qed.

Lemma flush_then_batch_started c (before : list Action) :
  batch_started c \/ driver c <> None ->
  (flush_then c before).1.1 <> PanicNilPendingStarted
  /\ batch_started (flush_then c before).1.2.
Proof.
  intros Hc. pose proof (flush_batch_started c Hc) as Hfl.
  unfold flush_then. destruct (flush c) as [[[|] c1] t]; by simpl in *.
Qed.

(** One iteration started with the invariant never reads a nil
    [pendingStarted], and leaves the invariant in place for the next. *)
Lemma bufferer_step_batch_started (i : Input) c :
  batch_started c ->
  (bufferer_step unmarshal i c).1.1 <> PanicNilPendingStarted
  /\ ((bufferer_step unmarshal i c).1.1 = Continue ->
      batch_started (bufferer_step unmarshal i c).1.2).
Proof.
  intros Hinv. destruct i as [|msg t_now t_catchup t_max|t_min done]; simpl.
  - done.
  - destruct (msg_Metadata msg) as [err|md]; simpl; [done|].
    destruct (unmarshal (msg_Data msg)) as [err|evt0]; simpl; [done|].
    rewrite shouldSkip_set_pending.
    destruct (shouldSkip c evt0) as [[|] evt1]; simpl.
    { split; [done|]. intros _ Hne. simpl in *. apply Hinv.
      intros Hnil. apply Hne, nil_length_inv.
      by rewrite remove_msg_app_length, Hnil. }
    destruct (driver c) as [d|]; simpl; [|done].
    destruct (Process d (set_NatsMsg msg evt1)) as [d1 [hint [err|]]];
      simpl; [done|].
    set (c2 := set_driver d1 (set_pending (pending c ++ [msg])
                                           (pendingStarted c) c)).
    assert (Hfl2 : forall before,
      (flush_then c2 before).1.1 <> PanicNilPendingStarted
      /\ ((flush_then c2 before).1.1 = Continue ->
          batch_started (flush_then c2 before).1.2)).
    { intros before.
      destruct (flush_then_batch_started c2 before) as [? ?]; [by right|done]. }
    destruct (hint || _); [apply Hfl2|].
    destruct (pendingStarted c) as [ps|] eqn:Hps; simpl.
    + destruct (uint64 (max c) <? NumPending md); simpl.
      * destruct (t_catchup - ps <? maxPendingLatency * 2); simpl.
        { split; [done|]. intros _. apply batch_started_set.
          by subst c2. }
        destruct (max c <=? _); [apply Hfl2|].
        destruct (maxPendingLatency <=? t_max - ps); [apply Hfl2|].
        split; [done|]. intros _. apply batch_started_set.
        by subst c2.
      * destruct (max c <=? _); [apply Hfl2|].
        destruct (maxPendingLatency <=? t_max - ps); [apply Hfl2|].
        split; [done|]. intros _. apply batch_started_set.
        by subst c2.
    + set (c3 := set_pending (pending c2) (Some t_now) c2).
      assert (Hfl3 : forall before,
        (flush_then c3 before).1.1 <> PanicNilPendingStarted
        /\ ((flush_then c3 before).1.1 = Continue ->
            batch_started (flush_then c3 before).1.2)).
      { intros before.
        destruct (flush_then_batch_started c3 before) as [? ?];
          [by right|done]. }
      destruct (uint64 (max c) <? NumPending md); simpl.
      * destruct (t_catchup - t_now <? maxPendingLatency * 2); simpl.
        { split; [done|]. intros _. by apply batch_started_set. }
        destruct (max c <=? _); [apply Hfl3|].
        destruct (maxPendingLatency <=? t_max - t_now); [apply Hfl3|].
        split; [done|]. intros _. by apply batch_started_set.
      * destruct (max c <=? _); [apply Hfl3|].
        destruct (maxPendingLatency <=? t_max - t_now); [apply Hfl3|].
        split; [done|]. intros _. by apply batch_started_set.
  - assert (Hfl : forall before,
      (flush_then c before).1.1 <> PanicNilPendingStarted
      /\ ((flush_then c before).1.1 = Continue ->
          batch_started (flush_then c before).1.2)).
    { intros before.
      destruct (flush_then_batch_started c before) as [? ?]; [by left|done]. }
    destruct (pending c) as [|m0 rest] eqn:Hp; simpl.
    + destruct done; simpl; [done|]. split; [done|]. intros _.
      by apply batch_started_empty.
    + destruct (pendingStarted c) as [ps|] eqn:Hps.
      2:{ exfalso. apply Hinv; [by rewrite Hp | done]. }
      simpl.
      destruct (_ <? max c); simpl.
      * destruct (minPendingLatency <=? t_min - ps); [apply Hfl|done].
      * done.
Qed.

(** X21. The dispatcher on its own, with no other goroutine writing the
    consumer: started with the invariant (and the consumer starts with an
    empty batch), the loop never dereferences a nil [pendingStarted],
    whatever messages, clock readings and cancellations the environment
    presents, and the invariant "a non-empty batch has its
    [pendingStarted] set" holds again whenever the loop goes round. *)
Theorem pendingStarted_set_at_every_deref (inputs : list Input) c :
  batch_started c ->
  (bufferer unmarshal inputs c).1.1 <> PanicNilPendingStarted
  /\ ((bufferer unmarshal inputs c).1.1 = Continue ->
      batch_started (bufferer unmarshal inputs c).1.2).
Proof.
  revert c. induction inputs as [|i inputs IH]; intros c Hinv; simpl.
  - done.
  - destruct (bufferer_step_batch_started i c Hinv) as [Hno Hnext].
    destruct (bufferer_step unmarshal i c) as [[o c1] t1]. simpl in *.
    destruct o; try done.
    destruct (IH c1 (Hnext eq_refl)) as [Hno' Hnext'].
    by destruct (bufferer unmarshal inputs c1) as [[o2 c2] t2].
Qed.

(** ** The delivery policy chosen by [CreateConsumer] *)

(** The loop over the timestamps, from any starting value and in any
    order of iteration: nothing is found exactly when nothing is there. *)
Lemma earliest_foldl_None (entries : list (string * option Z))
    (acc : option Z) :
  foldl (fun startAt kv => earliest_step startAt kv.2) acc entries = None
  <-> acc = None /\ Forall (fun kv => kv.2 = None) entries.
Proof.
  revert acc. induction entries as [|[k v] entries IH]; intros acc; simpl.
  - split; [by intros -> | by intros []].
  - rewrite IH. split.
    + intros [Hstep Hall]. destruct v as [t|]; simpl in *.
      * destruct acc as [s0|]; [|done]. by destruct (Before_ t s0).
      * split; [done|]. by constructor.
    + intros [-> Hall]. inversion Hall as [|? ? Hv Hall']; subst.
      simpl in Hv. by subst.
Qed.

(** What is found is one of the timestamps (or the starting value) and is
    no later than any of them. *)
Lemma earliest_foldl_Some (entries : list (string * option Z))
    (acc : option Z) (w : Z) :
  foldl (fun startAt kv => earliest_step startAt kv.2) acc entries = Some w ->
  (acc = Some w \/ exists k, (k, Some w) ∈ entries)
  /\ (forall a, acc = Some a -> w <= a)
  /\ (forall k v, (k, Some v) ∈ entries -> w <= v).
Proof.
  revert acc. induction entries as [|[k v] entries IH]; intros acc; simpl.
  - intros ->. split; [by left|]. split.
    + intros a [= ->]. lia.
    + intros k v Hin. by apply elem_of_nil in Hin.
  - intros Hf. destruct (IH _ Hf) as [Hfrom [Hacc Hall]]. clear IH Hf.
    assert (Hstep : forall a, earliest_step acc v = Some a ->
              (acc = Some a \/ v = Some a)
              /\ (forall b, acc = Some b -> a <= b)
              /\ (forall b, v = Some b -> a <= b)).
    { intros a. unfold earliest_step, Before_.
      destruct v as [t|], acc as [s0|]; simpl; try done.
      - destruct (Z.ltb_spec t s0); intros [= <-].
        + split; [by right|]. split; intros b [= <-]; lia.
        + split; [by left|]. split; intros b [= <-]; lia.
      - intros [= <-]. split; [by right|]. split; [done|].
        intros b [= <-]. lia.
      - intros [= <-]. split; [by left|]. split; [|done].
        intros b [= <-]. lia. }
    split; [|split].
    + destruct Hfrom as [Hw|[k' Hin]].
      * destruct (Hstep _ Hw) as [[?|Hv] _]; [by left|].
        right. exists k. subst. by left.
      * right. exists k'. by right.
    + intros a Ha. destruct (earliest_step acc v) as [b|] eqn:Hb.
      * destruct (Hstep b eq_refl) as [_ [Hle _]].
        specialize (Hacc b eq_refl). specialize (Hle a Ha). lia.
      * subst acc. unfold earliest_step in Hb.
        destruct v as [t|]; [by destruct (Before_ t a)|done].
    + intros k' v' Hin. apply elem_of_cons in Hin.
      destruct Hin as [[= -> <-]|Hin]; [|by eapply Hall].
      destruct (earliest_step acc (Some v')) as [b|] eqn:Hb.
      * destruct (Hstep b eq_refl) as [_ [_ Hle]].
        specialize (Hacc b eq_refl). specialize (Hle v' eq_refl). lia.
      * unfold earliest_step in Hb.
        destruct acc as [s0|]; [by destruct (Before_ v' s0)|done].
Qed.

(** Whatever the order in which the map is visited, the loop finds the
    earliest watermark when there is one. *)
Lemma earliest_is_earliest (stamps : gmap string (option Z)) (w : Z)
    (entries : list (string * option Z)) :
  entries ≡ₚ map_to_list stamps ->
  is_earliest_watermark stamps w ->
  earliest entries = Some w.
Proof.
  intros Hperm [[table Hin] Hmin]. unfold earliest.
  destruct (foldl _ None entries) as [w0|] eqn:Hf.
  - apply earliest_foldl_Some in Hf. destruct Hf as [Hfrom [_ Hall]].
    destruct Hfrom as [?|[k Hk]]; [done|].
    rewrite Hperm in Hk. apply elem_of_map_to_list in Hk.
    assert ((table, Some w) ∈ entries) as Hw.
    { rewrite Hperm. by apply elem_of_map_to_list. }
    specialize (Hall _ _ Hw). specialize (Hmin _ _ Hk).
    f_equal. lia.
  - apply earliest_foldl_None in Hf. destruct Hf as [_ Hall].
    rewrite Forall_forall in Hall.
    assert ((table, Some w) ∈ entries) as Hw.
    { rewrite Hperm. by apply elem_of_map_to_list. }
    by specialize (Hall _ Hw).
Qed.

Lemma earliest_no_watermark (stamps : gmap string (option Z)) :
  no_watermark (Some stamps) ->
  earliest (map_to_list stamps) = None.
Proof.
  intros Hno. unfold earliest. apply earliest_foldl_None. split; [done|].
  apply Forall_forall. intros [k [v|]] Hin; [|done].
  apply elem_of_map_to_list in Hin. by destruct (Hno stamps k v eq_refl).
Qed.

(** C7. When the lookup of the durable consumer says "not found",
    [CreateConsumer] creates it with: deliver-all if [DeliverAll] is set;
    otherwise deliver-by-start-time from the earliest watermark of
    [ExportTableTimestamps] if there is a watermark; otherwise
    deliver-new.  When the durable consumer exists, [CreateConsumer]
    updates it with the delivery policy and start time it already has,
    whatever [DeliverAll] and the watermarks say, and with the other
    fields taken from the new configuration. *)
Theorem create_consumer_delivery_policy (env : JetStreamEnv)
    (config : ConsumerConfig D) (info : CredentialInfo) :
  env_NewNatsConnection env = inr info ->
  env_jetstream_New env = None ->
  (forall err,
      env_Consumer env = inl err ->
      errors_Is err ErrConsumerNotFound = true ->
      env_CreateConsumer env = None ->
      exists consumer cfg,
        CreateConsumer env config = inr (consumer, JsCreate cfg)
        /\ (cfg_DeliverAll config = true ->
            js_DeliverPolicy cfg = DeliverAllPolicy
            /\ js_OptStartTime cfg = None)
        /\ (cfg_DeliverAll config = false ->
            forall stamps w,
              cfg_ExportTableTimestamps config = Some stamps ->
              is_earliest_watermark stamps w ->
              js_DeliverPolicy cfg = DeliverByStartTimePolicy
              /\ js_OptStartTime cfg = Some w)
        /\ (cfg_DeliverAll config = false ->
            no_watermark (cfg_ExportTableTimestamps config) ->
            js_DeliverPolicy cfg = DeliverNewPolicy
            /\ js_OptStartTime cfg = None))
  /\ (forall cached,
      env_Consumer env = inr cached ->
      env_UpdateConsumer env = None ->
      exists consumer cfg,
        CreateConsumer env config = inr (consumer, JsUpdate cfg)
        /\ js_DeliverPolicy cfg = js_DeliverPolicy cached
        /\ js_OptStartTime cfg = js_OptStartTime cached
        /\ js_Durable cfg
           = "eds-server-" +:+ info_companyID info
               +:+ (if decide (cfg_Suffix config = EmptyString)
                    then EmptyString else "-" +:+ cfg_Suffix config)
        /\ js_MaxAckPending cfg = cfg_MaxAckPending config
        /\ js_MaxRequestBatch cfg = cfg_MaxPendingBuffer config
        /\ js_FilterSubjects cfg
           = map (fun companyID =>
                    "dbchange.*.*." +:+ companyID +:+ ".*.PUBLIC.>")
                 (info_companyIDs info)
        /\ js_MaxDeliver cfg = 20
        /\ js_AckWait cfg = 5 * 60 * 1000000000
        /\ js_AckPolicy cfg = AckExplicitPolicy
        /\ js_InactiveThreshold cfg = 72 * 3600 * 1000000000).
Proof.
  intros Hconn Hjs. split.
  - intros err Hlook Hnf Hcreate. unfold CreateConsumer.
    rewrite Hconn, Hjs, Hlook, Hnf, Hcreate. simpl.
    eexists _, _. split; [reflexivity|].
    split; [|split].
    + by intros ->.
    + intros -> stamps w Hst Hw. rewrite Hst.
      by rewrite (earliest_is_earliest stamps w (map_to_list stamps)).
    + intros -> Hno.
      destruct (cfg_ExportTableTimestamps config) as [stamps|]; [|done].
      by rewrite earliest_no_watermark.
  - intros cached Hlook Hupd. unfold CreateConsumer.
    rewrite Hconn, Hjs, Hlook, Hupd. simpl.
    eexists _, _. split; [reflexivity|]. by repeat split.
Qed.

End Properties.

(** * The properties on concrete runs *)

(** [Flush] fails with an ordinary error on a batch of two: both naked,
    none acked, the error sent. *)
Lemma flush_error_naks_all_witness :
  let d := mkScript 0 [] [Some (ErrOther "db down")] "" in
  let c := sample_consumer 10 d [msg_new; msg_cust] (Some 5) in
  driver c = Some d
  /\ Flush d = (idle_driver, Some (ErrOther "db down"))
  /\ exists c',
      flush c
      = (true, c', [EFlush; ENak msg_new; ENak msg_cust;
                    EEmit (ErrOther "db down")])
      /\ pending c' = [] /\ pendingStarted c' = None.
Proof.
  intros d c.
  assert (Hd : driver c = Some d) by reflexivity.
  assert (Hf : Flush d = (idle_driver, Some (ErrOther "db down")))
    by reflexivity.
  split; [exact Hd|]. split; [exact Hf|].
  destruct (flush_error_naks_all c d idle_driver (ErrOther "db down") Hd Hf)
    as [c' [Hfl [_ [_ [_ [_ [_ Hreset]]]]]]].
  exists c'. split; [exact Hfl | exact Hreset].
Defined.

(** A successful flush of a batch of two. *)
Lemma flush_success_resets_witness :
  let c := sample_consumer 10 idle_driver [msg_new; msg_cust] (Some 5) in
  driver c = Some idle_driver
  /\ Flush idle_driver = (idle_driver, None)
  /\ Forall (fun m => msg_Ack m = None) (pending c)
  /\ exists c',
      flush c = (false, c', [EFlush; EAck msg_new; EAck msg_cust])
      /\ pending c' = [] /\ pendingStarted c' = None.
Proof.
  intros c.
  assert (Hok : Forall (fun m => msg_Ack m = None) (pending c)).
  { repeat constructor. }
  assert (Hd : driver c = Some idle_driver) by reflexivity.
  assert (Hf : Flush idle_driver = (idle_driver, None)) by reflexivity.
  split; [exact Hd|]. split; [exact Hf|]. split; [exact Hok|].
  exact (flush_success_resets c idle_driver idle_driver Hd Hf Hok).
Defined.

(** C2, on a batch of two whose second ack fails after a successful
    [driver.Flush]: the first message, already acked, is naked as well, and
    nothing is sent on the error channel. *)
Theorem flush_ack_failure_naks_acked_silently :
  flush (sample_consumer 10 idle_driver [msg_new; msg_bad_ack] (Some 5))
  = (true, sample_consumer 10 idle_driver [] None,
     [EFlush; EAck msg_new; EAck msg_bad_ack; ENak msg_new; ENak msg_bad_ack]).
Proof. reflexivity. Qed.

(** C3, on a run of the dispatcher: two messages arrive, the batch reaches
    the cap, [driver.Flush] succeeds, the second ack fails; the first
    message is both acked and naked. *)
Theorem dispatcher_acks_and_naks_same_message :
  let run :=
    bufferer sample_unmarshal
             [InMsg msg_new 100 101 102; InMsg msg_bad_ack 200 201 202]
             (sample_consumer 2 idle_driver [] None) in
  run.1.1 = Return
  /\ run.2
     = [EProcess (set_NatsMsg msg_new (sample_event "orders" 1700000000001));
        EProcess (set_NatsMsg msg_bad_ack
                              (sample_event "customers" 1700000000002));
        EFlush; EAck msg_new; EAck msg_bad_ack; ENak msg_new; ENak msg_bad_ack]
  /\ EAck msg_new ∈ run.2 /\ ENak msg_new ∈ run.2.
Proof.
  intros run.
  assert (Ht : run.2
     = [EProcess (set_NatsMsg msg_new (sample_event "orders" 1700000000001));
        EProcess (set_NatsMsg msg_bad_ack
                              (sample_event "customers" 1700000000002));
        EFlush; EAck msg_new; EAck msg_bad_ack; ENak msg_new; ENak msg_bad_ack])
    by (vm_compute; reflexivity).
  split; [vm_compute; reflexivity|]. split; [exact Ht|].
  rewrite Ht. split; apply list_elem_of_In; simpl; tauto.
Qed.

(** Scenario 2: watermark 1_700_000_000_000 ms on [orders], an event of
    [orders] one millisecond earlier. *)
Lemma watermark_event_acked_and_skipped_witness :
  let c := with_stamps (sample_consumer 10 idle_driver [msg_cust] (Some 5)) in
  let evt := sample_event "orders" 1699999999999 in
  msg_Metadata msg_old = inr (mkMetadata 1 1 1 0)
  /\ sample_unmarshal (msg_Data msg_old) = inr evt
  /\ tableTimestamps c = Some sample_stamps
  /\ sample_stamps !! Table evt = Some (Some (UnixMilli 1700000000000))
  /\ UnixMilli (Timestamp evt) < UnixMilli 1700000000000
  /\ exists c',
      bufferer_step sample_unmarshal (InMsg msg_old 100 101 102) c
      = (Continue, c', [EAck msg_old])
      /\ pending c' = [msg_cust].
Proof.
  intros c evt.
  assert (Hlt : UnixMilli (Timestamp evt) < UnixMilli 1700000000000)
    by (vm_compute; reflexivity).
  assert (Hw : sample_stamps !! Table evt
               = Some (Some (UnixMilli 1700000000000)))
    by (vm_compute; reflexivity).
  assert (Hfresh : Forall (fun m => msg_ptr m <> msg_ptr msg_old) (pending c)).
  { repeat constructor. simpl. discriminate. }
  assert (Hmd : msg_Metadata msg_old = inr (mkMetadata 1 1 1 0))
    by reflexivity.
  assert (Hu : sample_unmarshal (msg_Data msg_old) = inr evt) by reflexivity.
  assert (Ht : tableTimestamps c = Some sample_stamps) by reflexivity.
  split; [exact Hmd|]. split; [exact Hu|]. split; [exact Ht|].
  split; [exact Hw|]. split; [exact Hlt|].
  destruct (watermark_event_acked_and_skipped sample_unmarshal c msg_old
              (mkMetadata 1 1 1 0) evt sample_stamps (UnixMilli 1700000000000)
              100 101 102 Hmd Hu Ht Hw Hlt)
    as [c' [Hstep [_ [_ [_ [_ Hsame]]]]]].
  exists c'. split; [exact Hstep|]. exact (proj1 (Hsame Hfresh)).
Defined.

(** A validator that fails: the event is acked and skipped. *)
Lemma validator_error_acked_and_skipped_witness :
  let c := with_validator failing_validator
             (sample_consumer 10 idle_driver [msg_cust] (Some 5)) in
  let evt := sample_event "orders" 1700000000001 in
  msg_Metadata msg_new = inr (mkMetadata 2 2 1 0)
  /\ sample_unmarshal (msg_Data msg_new) = inr evt
  /\ validator c = Some failing_validator
  /\ v_err (failing_validator evt) = Some (ErrOther "schema unreadable")
  /\ exists c',
      bufferer_step sample_unmarshal (InMsg msg_new 100 101 102) c
      = (Continue, c', [EAck msg_new])
      /\ pending c' = [msg_cust].
Proof.
  intros c evt.
  assert (Hfresh : Forall (fun m => msg_ptr m <> msg_ptr msg_new) (pending c)).
  { repeat constructor. simpl. discriminate. }
  assert (Hmd : msg_Metadata msg_new = inr (mkMetadata 2 2 1 0))
    by reflexivity.
  assert (Hu : sample_unmarshal (msg_Data msg_new) = inr evt) by reflexivity.
  assert (Hv : validator c = Some failing_validator) by reflexivity.
  assert (He : v_err (failing_validator evt)
               = Some (ErrOther "schema unreadable")) by reflexivity.
  split; [exact Hmd|]. split; [exact Hu|]. split; [exact Hv|].
  split; [exact He|].
  destruct (validator_error_acked_and_skipped sample_unmarshal c msg_new
              (mkMetadata 2 2 1 0) evt failing_validator
              (ErrOther "schema unreadable") 100 101 102 Hmd Hu Hv He)
    as [c' [Hstep [_ [_ [_ [_ Hsame]]]]]].
  exists c'. split; [exact Hstep|]. exact (proj1 (Hsame Hfresh)).
Defined.


(** Pause then Unpause around a batch of one. *)
Lemma pause_unpause_keeps_batch_witness :
  let c := sample_consumer 10 idle_driver [msg_new] (Some 5) in
  subscriber c = Some 7%nat
  /\ exists c1,
      Pause 900 c = Some (c1, [EDrain 7%nat])
      /\ pending (Unpause (inr 8%nat) c1).1.2 = [msg_new]
      /\ pendingStarted (Unpause (inr 8%nat) c1).1.2 = Some 5
      /\ (flush (Unpause (inr 8%nat) c1).1.2).2 = [EFlush; EAck msg_new].
Proof.
  intros c.
  assert (Hs : subscriber c = Some 7%nat) by reflexivity.
  split; [exact Hs|].
  destruct (pause_unpause_keeps_batch c 7%nat 900 (inr 8%nat) Hs)
    as [c1 [Hp [_ [_ [_ [_ [Hpend [Hps [_ [Hfl _]]]]]]]]]].
  exists c1. split; [exact Hp|]. split; [exact Hpend|].
  split; [exact Hps|]. rewrite Hfl. reflexivity.
Defined.

(** A run of the dispatcher from the empty batch: a message, an idle
    round that flushes after the minimum latency, another message, then
    cancellation. *)
Lemma pendingStarted_set_at_every_deref_witness :
  let c := sample_consumer 10 idle_driver [] None in
  let inputs :=
    [InMsg msg_new 100 101 102; InDefault 3000000000 false;
     InMsg msg_cust 4000000000 4000000001 4000000002; InDone] in
  batch_started c
  /\ (bufferer sample_unmarshal inputs c).1.1 <> PanicNilPendingStarted
  /\ (bufferer sample_unmarshal inputs c).1.1 = Return.
Proof.
  intros c inputs.
  assert (Hinv : batch_started c).
  { intros Hne. destruct (Hne eq_refl). }
  split; [exact Hinv|]. split.
  - exact (proj1 (pendingStarted_set_at_every_deref sample_unmarshal inputs c
                    Hinv)).
  - reflexivity.
Defined.

(** The earliest of two watermarks. *)
Lemma two_stamps_earliest :
  is_earliest_watermark two_stamps (UnixMilli 1600000000000).
Proof.
  split.
  - exists "customers". reflexivity.
  - intros table w' Hl. unfold two_stamps in Hl.
    destruct (decide (table = "orders")) as [->|Hne].
    + rewrite lookup_insert_eq in Hl. injection Hl as <-.
      unfold UnixMilli. lia.
    + rewrite lookup_insert_ne in Hl by congruence.
      destruct (decide (table = "customers")) as [->|Hne'].
      * rewrite lookup_singleton_eq in Hl. injection Hl as <-. lia.
      * rewrite lookup_singleton_ne in Hl by congruence. discriminate.
Defined.

(** First creation with two watermarks and no [DeliverAll]: delivery by
    start time, from the earlier one. *)
Lemma create_consumer_delivery_policy_witness :
  let config := sample_config false (Some two_stamps) in
  env_NewNatsConnection env_fresh = inr sample_info
  /\ env_jetstream_New env_fresh = None
  /\ exists consumer cfg,
      CreateConsumer env_fresh config = inr (consumer, JsCreate cfg)
      /\ js_DeliverPolicy cfg = DeliverByStartTimePolicy
      /\ js_OptStartTime cfg = Some (UnixMilli 1600000000000).
Proof.
  intros config.
  assert (Hconn : env_NewNatsConnection env_fresh = inr sample_info)
    by reflexivity.
  assert (Hjs : env_jetstream_New env_fresh = None) by reflexivity.
  split; [exact Hconn|]. split; [exact Hjs|].
  destruct (create_consumer_delivery_policy env_fresh config sample_info
              Hconn Hjs) as [Hnew _].
  destruct (Hnew (ErrWrap "nats" ErrConsumerNotFound) eq_refl eq_refl eq_refl)
    as [consumer [cfg [Hc [_ [Hstart _]]]]].
  exists consumer, cfg. split; [exact Hc|].
  exact (Hstart eq_refl two_stamps (UnixMilli 1600000000000) eq_refl
                two_stamps_earliest).
Defined.

(** An existing consumer created with deliver-new keeps that policy even
    with [DeliverAll] set and watermarks present. *)
Example create_consumer_existing_keeps_policy :
  exists consumer cfg,
    CreateConsumer env_existing (sample_config true (Some two_stamps))
    = inr (consumer, JsUpdate cfg)
    /\ js_DeliverPolicy cfg = DeliverNewPolicy
    /\ js_OptStartTime cfg = None
    /\ js_Durable cfg = "eds-server-acme-w1"
    /\ js_MaxAckPending cfg = 3.
Proof. eexists _, _. split; [reflexivity|]. by repeat split. Qed.

(** * Further properties of the consumer *)

Section MoreProperties.

Context {D : Type} `{Driver D}.
Variable unmarshal : string -> error + DBChangeEvent.

Implicit Types (c : Consumer D) (m msg : Msg) (t : list Action).

(** ** More on [flush] *)

Lemma ack_loop_ok_iff (ms : list Msg) :
  (ack_loop ms).2 = false <-> Forall (fun m => msg_Ack m = None) ms.
Proof.
  induction ms as [|m ms IH]; simpl.
  - split; [by constructor | done].
  - destruct (msg_Ack m) eqn:Hm; simpl.
    + split; [done|]. inversion 1; congruence.
    + destruct (ack_loop ms) as [t failed]. simpl in *. rewrite IH.
      split; [by constructor | by inversion 1].
Qed.

(** All the ways [flush] can go: no driver; the sentinel; another error;
    a failed ack after some acks; everything acked. *)
Lemma flush_cases c :
  (driver c = None /\ flush c = (stopping c, c, []))
  \/ exists d stop t,
       driver c = Some d
       /\ flush c
          = (stop, set_pending [] None (set_driver (Flush d).1 c), EFlush :: t)
       /\ ((stop = true /\ t = map ENak (pending c))
           \/ (stop = true /\ exists e, t = map ENak (pending c) ++ [EEmit e])
           \/ (stop = true
               /\ exists k : nat,
                   t = map EAck (take k (pending c)) ++ map ENak (pending c))
           \/ (stop = stopping c /\ t = map EAck (pending c))).
Proof.
  unfold flush, handleError, nackEverything.
  destruct (driver c) as [d|] eqn:Hd; [right | by left].
  exists d. destruct (Flush d) as [d1 [err|]] eqn:Hf; simpl.
  - destruct (errors_Is err ErrDriverStopped); eexists _, _;
      (split; [done|]); (split; [reflexivity|]); [by left|].
    right; left. eauto.
  - destruct (ack_loop_prefix (pending c)) as [k [Hk1 Hk2]].
    destruct (ack_loop (pending c)) as [acks [|]] eqn:Ha; simpl in *;
      eexists _, _; (split; [done|]); (split; [reflexivity|]).
    + right; right; left. split; [done|]. exists k. by rewrite Hk1.
    + right; right; right. split; [done|]. by rewrite Hk1, Hk2.
Qed.

(** X1. [flush] lets the dispatcher go on exactly when the consumer is not
    stopping and either there is no driver or [driver.Flush] and every ack
    succeeded. *)
Theorem flush_goes_on_iff c :
  (flush c).1.1 = false
  <-> stopping c = false
      /\ (driver c = None
          \/ exists d d1,
               driver c = Some d /\ Flush d = (d1, None)
               /\ Forall (fun m => msg_Ack m = None) (pending c)).
Proof.
  unfold flush, handleError, nackEverything.
  destruct (driver c) as [d|] eqn:Hd; simpl.
  - destruct (Flush d) as [d1 [err|]] eqn:Hf; simpl.
    + split.
      * by destruct (errors_Is err ErrDriverStopped).
      * intros [_ [?|[d' [d1' [[= <-] [Hf' _]]]]]]; [done|].
        rewrite Hf in Hf'. done.
    + pose proof (ack_loop_ok_iff (pending c)) as Hok.
      destruct (ack_loop (pending c)) as [acks [|]]; simpl in *.
      * split; [done|]. intros [_ [?|[d' [d1' [_ [_ Hall]]]]]]; [done|].
        by apply Hok in Hall.
      * split.
        -- intros Hs. split; [done|]. right. exists d, d1.
           split; [done|]. split; [done|]. by apply Hok.
        -- by intros [? _].
  - split; [intros Hs; split; [done | by left] | by intros []].
Qed.

Lemma flush_effect c :
  (driver c <> None ->
   pending (flush c).1.2 = [] /\ pendingStarted (flush c).1.2 = None
   /\ exists rest, (flush c).2 = EFlush :: rest)
  /\ (driver c = None -> flush c = (stopping c, c, []))
  /\ max (flush c).1.2 = max c
  /\ conn_open (flush c).1.2 = conn_open c
  /\ subscriber (flush c).1.2 = subscriber c
  /\ started (flush c).1.2 = started c
  /\ pauseStarted (flush c).1.2 = pauseStarted c
  /\ stopping (flush c).1.2 = stopping c
  /\ sessionID (flush c).1.2 = sessionID c
  /\ tableTimestamps (flush c).1.2 = tableTimestamps c
  /\ validator (flush c).1.2 = validator c.
Proof.
  destruct (flush_cases c) as [[Hd Hfl]|[d [stop [t [Hd [Hfl _]]]]]];
    rewrite Hfl; simpl.
  - split; [by intros []|]. by repeat split.
  - split; [intros _; eauto|]. split; [by rewrite Hd|]. by repeat split.
Qed.

(** X2. [flush] touches only the driver, the batch and its clock: with a
    driver present the batch is empty and [pendingStarted] unset
    afterwards on every path (success, sentinel, error, failed ack); with
    no driver nothing is done at all; every other field is as before. *)
Theorem flush_frame c :
  (driver c <> None ->
   pending (flush c).1.2 = [] /\ pendingStarted (flush c).1.2 = None
   /\ exists rest, (flush c).2 = EFlush :: rest)
  /\ (driver c = None -> flush c = (stopping c, c, []))
  /\ max (flush c).1.2 = max c
  /\ conn_open (flush c).1.2 = conn_open c
  /\ subscriber (flush c).1.2 = subscriber c
  /\ started (flush c).1.2 = started c
  /\ pauseStarted (flush c).1.2 = pauseStarted c
  /\ stopping (flush c).1.2 = stopping c
  /\ sessionID (flush c).1.2 = sessionID c
  /\ tableTimestamps (flush c).1.2 = tableTimestamps c
  /\ validator (flush c).1.2 = validator c.
Proof.
  destruct (flush_cases c) as [[Hd Hfl]|[d [stop [t [Hd [Hfl _]]]]]];
    rewrite Hfl; simpl.
  - split; [by intros []|]. by repeat split.
  - split; [intros _; eauto|]. split; [by rewrite Hd|]. by repeat split.
Qed.

Lemma errors_Is_wrap_all (ctxs : list string) (e target : error) :
  errors_Is e target = true ->
  errors_Is (wrap_all ctxs e) target = true.
Proof.
  intros He. induction ctxs as [|ctx ctxs IH]; simpl; [done|].
  by destruct (decide (ErrWrap ctx (wrap_all ctxs e) = target)).
Qed.

(** X3. The "driver stopped" sentinel is recognised through any number of
    [%w] wrappings: [flush] then naks the batch and sends nothing on the
    error channel. *)
Theorem flush_wrapped_driver_stopped c (d d1 : D) (ctxs : list string) :
  driver c = Some d ->
  Flush d = (d1, Some (wrap_all ctxs ErrDriverStopped)) ->
  flush c
  = (true, set_pending [] None (set_driver d1 c),
     EFlush :: map ENak (pending c)).
Proof.
  intros Hd Hf. unfold flush, nackEverything. rewrite Hd, Hf.
  by rewrite errors_Is_wrap_all.
Qed.

(** ** Whole runs of the dispatcher *)

Lemma flush_then_eq c before :
  flush_then c before
  = (if (flush c).1.1 then Return else Continue, (flush c).1.2,
     before ++ (flush c).2).
Proof. unfold flush_then. by destruct (flush c) as [[stop c1] t]. Qed.

Lemma flush_driver_kept c : driver c <> None -> driver (flush c).1.2 <> None.
Proof.
  destruct (flush_cases c) as [[Hd Hfl]|[d [stop [t [Hd [Hfl _]]]]]];
    rewrite Hfl; simpl; [done|]. by intros _.
Qed.

Lemma flush_max c : max (flush c).1.2 = max c.
Proof. apply (flush_effect c). Qed.

Lemma flush_empties c :
  driver c <> None ->
  pending (flush c).1.2 = [] /\ pendingStarted (flush c).1.2 = None.
Proof. intros Hd. by destruct (proj1 (flush_effect c) Hd) as [? [? _]]. Qed.

Ltac step_cases :=
  unfold bufferer_step, handleError, nackEverything;
  rewrite ?flush_then_eq;
  repeat (case_match; simplify_eq/=; rewrite ?flush_then_eq).

Lemma bufferer_step_return (i : Input) c :
  driver c <> None ->
  (driver (bufferer_step unmarshal i c).1.2 <> None)
  /\ max (bufferer_step unmarshal i c).1.2 = max c
  /\ ((bufferer_step unmarshal i c).1.1 = Return ->
     pending (bufferer_step unmarshal i c).1.2 = []
     /\ pendingStarted (bufferer_step unmarshal i c).1.2 = None).
Proof.
  intros Hd.
  step_cases.
  all: try done.
  all: split; [by apply flush_driver_kept|].
  all: split; [by rewrite flush_max|].
  all: try done.
  all: intros _; by apply flush_empties.
Qed.

(** X4. With a driver present, a run of the dispatcher keeps the driver
    and [max], and when it returns (cancellation, error, sentinel, failed
    ack or stop) the batch is empty and [pendingStarted] unset: nothing is
    left for the [nackEverything] that [Stop] performs afterwards. *)
Theorem dispatcher_returns_with_nothing_pending (inputs : list Input) c :
  driver c <> None ->
  (driver (bufferer unmarshal inputs c).1.2 <> None)
  /\ max (bufferer unmarshal inputs c).1.2 = max c
  /\ ((bufferer unmarshal inputs c).1.1 = Return ->
     pending (bufferer unmarshal inputs c).1.2 = []
     /\ pendingStarted (bufferer unmarshal inputs c).1.2 = None).
Proof.
  revert c. induction inputs as [|i inputs IH]; intros c Hd; simpl; [done|].
  destruct (bufferer_step_return i c Hd) as [Hd1 [Hmax Hret]].
  destruct (bufferer_step unmarshal i c) as [[o c1] t1]. simpl in *.
  destruct o; try done.
  destruct (IH c1 Hd1) as [Hd2 [Hmax2 Hret2]].
  destruct (bufferer unmarshal inputs c1) as [[o2 c2] t2]. simpl in *.
  split; [done|]. split; [congruence|done].
Qed.

Lemma naks_no_emit (l : list Msg) : Forall (fun a => is_emit a = false) (map ENak l).
Proof. induction l; by constructor. Qed.

Lemma acks_no_emit (l : list Msg) : Forall (fun a => is_emit a = false) (map EAck l).
Proof. induction l; by constructor. Qed.

Lemma flush_emit c :
  Forall (fun a => is_emit a = false) (flush c).2
  \/ ((flush c).1.1 = true
      /\ pending (flush c).1.2 = []
      /\ exists t0 e, (flush c).2 = t0 ++ [EEmit e]
                      /\ Forall (fun a => is_emit a = false) t0).
Proof.
  destruct (flush_cases c) as [[Hd Hfl]|[d [stop [t [Hd [Hfl Hc]]]]]];
    rewrite Hfl; simpl; [by left|].
  destruct Hc as [[-> ->]|[[-> [e ->]]|[[-> [k ->]]|[-> ->]]]].
  - left. constructor; [done|]. apply naks_no_emit.
  - right. split; [done|]. split; [done|].
    exists (EFlush :: map ENak (pending c)), e. split; [done|].
    constructor; [done|]. apply naks_no_emit.
  - left. constructor; [done|]. apply Forall_app.
    split; [apply acks_no_emit | apply naks_no_emit].
  - left. constructor; [done|]. apply acks_no_emit.
Qed.

Lemma bufferer_step_emit (i : Input) c :
  Forall (fun a => is_emit a = false) (bufferer_step unmarshal i c).2
  \/ ((bufferer_step unmarshal i c).1.1 = Return
      /\ pending (bufferer_step unmarshal i c).1.2 = []
      /\ exists t0 e, (bufferer_step unmarshal i c).2 = t0 ++ [EEmit e]
                      /\ Forall (fun a => is_emit a = false) t0).
Proof.
  step_cases.
  all: try (left; by repeat constructor).
  all: try (left; apply naks_no_emit).
  all: try (right; split; [done|]; split; [done|];
            eexists _, _; split; [reflexivity|]; apply naks_no_emit).
  all: try (right; split; [done|]; split; [done|];
            eexists (_ :: _), _; split; [reflexivity|];
            constructor; [done|]; apply naks_no_emit).
  all: match goal with
       | |- context [flush ?cx] =>
           destruct (flush_emit cx) as [Hno|[Hstop [Hp [t0 [e [Ht Hno]]]]]]
       end.
  all: try (left; simpl; try constructor; done).
  all: try congruence.
  all: right; split; [done|]; split; [done|]; rewrite Ht.
  all: try (eexists (_ :: _), _; split; [reflexivity|]; by constructor).
  all: eexists _, _; split; [reflexivity|]; done.
Qed.

(** X5. A run of the dispatcher sends at most one error on the error
    channel, and when it does, that is its last action: the loop has
    returned and the batch is empty. *)
Theorem dispatcher_emits_at_most_once (inputs : list Input) c :
  Forall (fun a => is_emit a = false) (bufferer unmarshal inputs c).2
  \/ ((bufferer unmarshal inputs c).1.1 = Return
      /\ pending (bufferer unmarshal inputs c).1.2 = []
      /\ exists t0 e, (bufferer unmarshal inputs c).2 = t0 ++ [EEmit e]
                      /\ Forall (fun a => is_emit a = false) t0).
Proof.
  revert c. induction inputs as [|i inputs IH]; intros c; simpl.
  - by left.
  - pose proof (bufferer_step_emit i c) as Hstep.
    destruct (bufferer_step unmarshal i c) as [[o c1] t1]. simpl in *.
    destruct o; try done.
    destruct Hstep as [Hno1|[? _]]; [|done].
    specialize (IH c1).
    destruct (bufferer unmarshal inputs c1) as [[o2 c2] t2]. simpl in *.
    destruct IH as [Hno2|[Hret [Hp [t0 [e [-> Hno2]]]]]].
    + left. by apply Forall_app.
    + right. split; [done|]. split; [done|].
      exists (t1 ++ t0), e. split; [by rewrite app_assoc|].
      by apply Forall_app.
Qed.

Lemma settled_naks (l : list Msg) :
  omap settled_ptr (map ENak l) = map msg_ptr l.
Proof. induction l; simpl; [done|]. by f_equal. Qed.

Lemma settled_acks (l : list Msg) :
  omap settled_ptr (map EAck l) = map msg_ptr l.
Proof. induction l; simpl; [done|]. by f_equal. Qed.

Lemma flush_settles c (p : nat) :
  p ∈ map msg_ptr (pending c) ->
  p ∈ omap settled_ptr (flush c).2 \/ p ∈ map msg_ptr (pending (flush c).1.2).
Proof.
  intros Hp.
  destruct (flush_cases c) as [[Hd Hfl]|[d [stop [t [Hd [Hfl Hc]]]]]];
    rewrite Hfl; simpl; [by right|]. left.
  destruct Hc as [[-> ->]|[[-> [e ->]]|[[-> [k ->]]|[-> ->]]]];
    rewrite ?omap_app, ?settled_naks, ?settled_acks; set_solver.
Qed.

Lemma remove_msg_keeps msg (l : list Msg) (p : nat) :
  p ∈ map msg_ptr l -> p <> msg_ptr msg ->
  p ∈ map msg_ptr (remove_msg msg l).
Proof.
  induction l as [|m l IH]; simpl; [done|].
  intros Hin Hne. unfold msg_eqb. destruct (Nat.eqb_spec (msg_ptr m) (msg_ptr msg)).
  - apply elem_of_cons in Hin. destruct Hin; [congruence|done].
  - simpl. apply elem_of_cons in Hin. destruct Hin as [->|Hin]; [by left|].
    right. by apply IH.
Qed.

Lemma bufferer_step_settles (i : Input) c (p : nat) :
  p ∈ map msg_ptr (pending c) ++ map msg_ptr (option_list (input_readable_msg i)) ->
  p ∈ omap settled_ptr (bufferer_step unmarshal i c).2
  \/ p ∈ map msg_ptr (pending (bufferer_step unmarshal i c).1.2).
Proof.
  intros Hp. 
  step_cases.
  all: rewrite ?omap_app, ?settled_naks; simpl.
  all: rewrite ?fmap_app in *; simpl in *.
  all: try (apply flush_settles; simpl; rewrite ?fmap_app; simpl; set_solver).
  all: try set_solver.
  destruct (decide (p = msg_ptr msg)) as [->|Hne]; [left; set_solver|].
  right. apply remove_msg_keeps; [|done]. rewrite fmap_app. simpl. set_solver.
Qed.

(** X6. No message is dropped silently: every message object that was
    in the batch at the start of a run, or was taken from the buffer
    during it with readable metadata, has been acked or naked by the end
    of the run or is still in the batch. *)
Theorem dispatcher_settles_or_keeps (inputs : list Input) c (p : nat) :
  p ∈ map msg_ptr (pending c)
      ++ map msg_ptr (omap input_readable_msg (taken unmarshal inputs c)) ->
  p ∈ omap settled_ptr (bufferer unmarshal inputs c).2
  \/ p ∈ map msg_ptr (pending (bufferer unmarshal inputs c).1.2).
Proof.
  revert c. induction inputs as [|i inputs IH]; intros c; simpl.
  - rewrite app_nil_r. by right.
  - pose proof (bufferer_step_settles i c p) as Hstep.
    destruct (bufferer_step unmarshal i c) as [[o c1] t1]. simpl in *.
    assert (Hone : omap input_readable_msg [i]
                   = option_list (input_readable_msg i)).
    { simpl. by destruct (input_readable_msg i). }
    destruct o; simpl; rewrite ?Hone; try exact Hstep.
    specialize (IH c1).
    destruct (bufferer unmarshal inputs c1) as [[o2 c2] t2]. simpl in *.
    rewrite omap_app. intros Hp.
    assert (p ∈ map msg_ptr (pending c)
                  ++ map msg_ptr (option_list (input_readable_msg i))
            \/ p ∈ map msg_ptr (omap input_readable_msg
                                     (taken unmarshal inputs c1)))
      as [Hin|Hin].
    { destruct (input_readable_msg i); simpl in *.
      - rewrite ?fmap_cons in Hp.
        apply elem_of_app in Hp. destruct Hp as [Hp|Hp].
        + left. apply elem_of_app. by left.
        + apply elem_of_cons in Hp. destruct Hp as [->|Hp]; [|by right].
          left. apply elem_of_app. right. by left.
      - apply elem_of_app in Hp. destruct Hp as [Hp|Hp]; [|by right].
        left. rewrite app_nil_r. done. }
    + destruct (Hstep Hin) as [Hs|Hpend].
      * left. apply elem_of_app. by left.
      * destruct IH as [Hs|Hk].
        -- apply elem_of_app. by left.
        -- left. apply elem_of_app. by right.
        -- by right.
    + destruct IH as [Hs|Hk].
      * apply elem_of_app. by right.
      * left. apply elem_of_app. by right.
      * by right.
Qed.

Lemma processed_naks (l : list Msg) : omap processed_msg (map ENak l) = [].
Proof. induction l; simpl; done. Qed.

Lemma processed_acks (l : list Msg) : omap processed_msg (map EAck l) = [].
Proof. induction l; simpl; done. Qed.

Lemma flush_processes_nothing c : omap processed_msg (flush c).2 = [].
Proof.
  destruct (flush_cases c) as [[Hd Hfl]|[d [stop [t [Hd [Hfl Hc]]]]]];
    rewrite Hfl; simpl; [done|].
  destruct Hc as [[-> ->]|[[-> [e ->]]|[[-> [k ->]]|[-> ->]]]];
    by rewrite ?omap_app, ?processed_naks, ?processed_acks.
Qed.

Lemma bufferer_step_processes (i : Input) c :
  omap processed_msg (bufferer_step unmarshal i c).2
    `sublist_of` option_list (input_msg i).
Proof.
  step_cases.
  all: rewrite ?omap_app, ?processed_naks, ?flush_processes_nothing; simpl.
  all: rewrite ?flush_processes_nothing.
  all: try apply sublist_nil_l.
  all: try reflexivity.
Qed.

(** X7. The messages whose events are handed to [driver.Process] during
    a run form a subsequence of the delivered messages: each delivery is
    processed at most once, and in delivery order. *)
Theorem dispatcher_processes_in_delivery_order (inputs : list Input) c :
  omap processed_msg (bufferer unmarshal inputs c).2
    `sublist_of` omap input_msg inputs.
Proof.
  revert c. induction inputs as [|i inputs IH]; intros c; simpl; [done|].
  pose proof (bufferer_step_processes i c) as Hstep.
  assert (Hcons : omap input_msg (i :: inputs)
                  = option_list (input_msg i) ++ omap input_msg inputs).
  { simpl. by destruct (input_msg i). }
  simpl in Hcons. rewrite Hcons. clear Hcons.
  destruct (bufferer_step unmarshal i c) as [[o c1] t1]. simpl in *.
  destruct o; simpl; try by apply sublist_inserts_r.
  specialize (IH c1).
  destruct (bufferer unmarshal inputs c1) as [[o2 c2] t2]. simpl in *.
  rewrite omap_app. by apply sublist_app.
Qed.

Lemma remove_msg_sublist msg (l : list Msg) : remove_msg msg l `sublist_of` l.
Proof.
  induction l as [|m l IH]; simpl; [done|].
  destruct (msg_eqb m msg); [by apply sublist_cons | by apply sublist_skip].
Qed.

Lemma flush_batch_sublist c : pending (flush c).1.2 `sublist_of` pending c.
Proof.
  destruct (flush_cases c) as [[Hd Hfl]|[d [stop [t [Hd [Hfl Hc]]]]]];
    rewrite Hfl; simpl; [done | apply sublist_nil_l].
Qed.

Lemma bufferer_step_batch_sublist (i : Input) c :
  pending (bufferer_step unmarshal i c).1.2
    `sublist_of` pending c ++ option_list (input_msg i).
Proof.
  step_cases.
  all: try apply sublist_nil_l.
  all: try apply remove_msg_sublist.
  all: try (etrans; [apply flush_batch_sublist|]; simpl).
  all: try reflexivity.
  all: try by apply sublist_inserts_r.
Qed.

(** X8. The pending batch is always a subsequence, in order, of the
    initial batch followed by the delivered messages; so the order in
    which [flush] acks is the order of arrival. *)
Theorem batch_is_subsequence_of_arrivals (inputs : list Input) c :
  pending (bufferer unmarshal inputs c).1.2
    `sublist_of` pending c ++ omap input_msg inputs.
Proof.
  revert c. induction inputs as [|i inputs IH]; intros c; simpl.
  - by rewrite app_nil_r.
  - pose proof (bufferer_step_batch_sublist i c) as Hstep.
    assert (Hcons : omap input_msg (i :: inputs)
                    = option_list (input_msg i) ++ omap input_msg inputs).
    { simpl. by destruct (input_msg i). }
    simpl in Hcons. rewrite Hcons. clear Hcons. rewrite app_assoc.
    destruct (bufferer_step unmarshal i c) as [[o c1] t1]. simpl in *.
    destruct o; simpl; try by apply sublist_inserts_r.
    specialize (IH c1).
    destruct (bufferer unmarshal inputs c1) as [[o2 c2] t2]. simpl in *.
    etrans; [exact IH|]. by apply sublist_app.
Qed.

Lemma bufferer_step_below_cap (i : Input) c :
  below_cap c ->
  (bufferer_step unmarshal i c).1.1 = Continue ->
  below_cap (bufferer_step unmarshal i c).1.2.
Proof.
  intros Hinv. unfold below_cap in *.
  step_cases.
  all: try done.
  all: intros _ d' Hd'.
  all: try match goal with
       | _ : context [flush ?cx] |- _ =>
           destruct (flush_cases cx) as [[Hd Hfl]|[d3 [stop [t [Hd [Hfl Hc]]]]]];
           rewrite Hfl in *; simpl in *; [by auto | by left]
       end.
  1: { destruct (Hinv d' Hd') as [Hnil|Hlt].
       - left. apply nil_length_inv. by rewrite remove_msg_app_length, Hnil.
       - right. rewrite remove_msg_app_length. exact Hlt. }
  all: right; simplify_eq; unfold maxBatch; simpl;
    match goal with
    | Hb : _ || _ = false |- _ =>
        apply orb_false_iff in Hb; destruct Hb as [_ Hb]
    end;
    repeat match goal with
    | Hm : (_ <=? _) = true |- _ => apply Z.leb_le in Hm
    | Hm : (_ <=? _) = false |- _ => apply Z.leb_gt in Hm
    end;
    destruct (Z.ltb_spec 0 (MaxBatchSize d')); lia.
Qed.

(** X9. Started with a batch that is empty or below the cap, the loop
    comes round with a batch that is empty or strictly below the cap
    ([driver.MaxBatchSize()] if positive, else [max]) of the current
    driver: the driver is never handed more events than its cap without a
    flush. *)
Theorem batch_stays_below_cap (inputs : list Input) c :
  below_cap c ->
  (bufferer unmarshal inputs c).1.1 = Continue ->
  below_cap (bufferer unmarshal inputs c).1.2.
Proof.
  revert c. induction inputs as [|i inputs IH]; intros c Hinv; simpl; [done|].
  pose proof (bufferer_step_below_cap i c Hinv) as Hstep.
  destruct (bufferer_step unmarshal i c) as [[o c1] t1]. simpl in *.
  destruct o; try done.
  specialize (IH c1 (Hstep eq_refl)).
  by destruct (bufferer unmarshal inputs c1) as [[o2 c2] t2].
Qed.

Lemma idle_full_step (i : Input) c :
  is_idle i = true ->
  pending c <> [] ->
  max c <= Z.of_nat (length (pending c)) ->
  bufferer_step unmarshal i c = (Continue, c, []).
Proof.
  intros Hi Hne Hfull. destruct i as [| |t_min cancelled]; [discriminate Hi..|].
  unfold bufferer_step. cbv zeta.
  assert (Hpos : (0 <? Z.of_nat (length (pending c))) = true).
  { apply Z.ltb_lt. destruct (pending c); [done|]. simpl. lia. }
  assert (Hge : (Z.of_nat (length (pending c)) <? max c) = false).
  { apply Z.ltb_ge. lia. }
  by rewrite Hpos, Hge.
Qed.

(** X10. The empty-buffer branch never flushes a batch that has reached
    [max]: however many idle rounds pass and whatever the clock says,
    nothing is done and the batch stays as it is. *)
Theorem idle_rounds_never_flush_full_batch (inputs : list Input) c :
  Forall (fun i => is_idle i = true) inputs ->
  pending c <> [] ->
  max c <= Z.of_nat (length (pending c)) ->
  bufferer unmarshal inputs c = (Continue, c, []).
Proof.
  intros Hall Hne Hfull. induction Hall as [|i inputs Hi _ IH]; simpl; [done|].
  rewrite (idle_full_step i c Hi Hne Hfull). by rewrite IH.
Qed.
(** ** Watermarks, [CreateConsumer], [NewConsumer] and the supervisor *)

(** X11. The start time [CreateConsumer] derives from the watermarks does
    not depend on the order in which the map is iterated. *)
Theorem earliest_order_independent (entries entries' : list (string * option Z)) :
  entries ≡ₚ entries' -> earliest entries = earliest entries'.
Proof.
  intros Hperm. unfold earliest.
  destruct (foldl _ None entries) as [w|] eqn:E1;
    destruct (foldl _ None entries') as [w'|] eqn:E2; [| | |done].
  - apply earliest_foldl_Some in E1. apply earliest_foldl_Some in E2.
    destruct E1 as [[?|[k Hk]] [_ Hmin]]; [done|].
    destruct E2 as [[?|[k' Hk']] [_ Hmin']]; [done|].
    rewrite Hperm in Hk. rewrite <- Hperm in Hk'.
    specialize (Hmin _ _ Hk'). specialize (Hmin' _ _ Hk). f_equal. lia.
  - apply earliest_foldl_Some in E1. apply earliest_foldl_None in E2.
    destruct E1 as [[?|[k Hk]] _]; [done|]. destruct E2 as [_ Hall].
    rewrite Hperm in Hk. rewrite Forall_forall in Hall.
    by specialize (Hall _ Hk).
  - apply earliest_foldl_None in E1. apply earliest_foldl_Some in E2.
    destruct E2 as [[?|[k Hk]] _]; [done|]. destruct E1 as [_ Hall].
    rewrite <- Hperm in Hk. rewrite Forall_forall in Hall.
    by specialize (Hall _ Hk).
Qed.

Lemma shouldSkip_no_validator c evt :
  validator c = None ->
  (shouldSkip c evt).2 = evt
  /\ ((shouldSkip c evt).1 = true <-> before_watermark c evt).
Proof.
  intros Hv. unfold shouldSkip, before_watermark, Before_. rewrite Hv.
  destruct (tableTimestamps c) as [stamps|] eqn:Ht.
  - destruct (stamps !! Table evt) as [[W|]|] eqn:Hw.
    + destruct (Z.ltb_spec (UnixMilli (Timestamp evt)) W); simpl.
      * split; [done|]. split; [|done]. intros _. by exists stamps, W.
      * split; [done|]. split; [done|].
        intros [s' [W' [[= <-] [Hw' Hlt]]]]. rewrite Hw in Hw'.
        injection Hw' as <-. lia.
    + simpl. split; [done|]. split; [done|].
      intros [s' [W' [[= <-] [Hw' _]]]]. by rewrite Hw in Hw'.
    + simpl. split; [done|]. split; [done|].
      intros [s' [W' [[= <-] [Hw' _]]]]. by rewrite Hw in Hw'.
  - simpl. split; [done|]. split; [done|]. by intros [s' [W' [? _]]].
Qed.

(** X12. With no validator configured, a decoded event is handed to
    [driver.Process] exactly when it is not older than the watermark of
    its table: an older event gets the single ack of the skip path, any
    other event (no watermark map, no entry or a nil entry for the table,
    or a timestamp at or after the watermark) is processed first thing. *)
Theorem event_processed_iff_not_before_watermark c msg md evt (d : D)
    (t_now t_catchup t_max : Z) :
  msg_Metadata msg = inr md ->
  unmarshal (msg_Data msg) = inr evt ->
  validator c = None ->
  driver c = Some d ->
  (before_watermark c evt ->
   (bufferer_step unmarshal (InMsg msg t_now t_catchup t_max) c).2
   = [EAck msg])
  /\ (~ before_watermark c evt ->
      exists rest,
        (bufferer_step unmarshal (InMsg msg t_now t_catchup t_max) c).2
        = EProcess (set_NatsMsg msg evt) :: rest).
Proof.
  intros Hmd Hu Hv Hd.
  destruct (shouldSkip_no_validator c evt Hv) as [Hevt Hskip].
  unfold bufferer_step. rewrite Hmd, Hu, shouldSkip_set_pending.
  destruct (shouldSkip c evt) as [skip evt1] eqn:Hs. simpl in *. subst evt1.
  split.
  - intros Hb. apply Hskip in Hb. by subst.
  - intros Hnb. destruct skip; [by destruct Hnb; apply Hskip|].
    rewrite Hd.
    destruct (Process d (set_NatsMsg msg evt)) as [d1 [hint [err|]]].
    + unfold handleError, nackEverything. simpl. eauto.
    + unfold flush_then.
      repeat (case_match; simplify_eq/=); eauto.
Qed.
(** X13. [CreateConsumer] sends a create request exactly when the
    connection and JetStream context are obtained, the lookup fails with an
    error that is (or wraps) "consumer not found" and the creation
    succeeds; it sends an update request exactly when the lookup finds the
    consumer and the update succeeds.  Any other lookup error makes it
    fail without a request. *)
Theorem create_consumer_succeeds_iff (env : JetStreamEnv)
    (config : ConsumerConfig D) :
  ((exists c cfg, CreateConsumer env config = inr (c, JsCreate cfg))
   <-> (exists info, env_NewNatsConnection env = inr info)
       /\ env_jetstream_New env = None
       /\ (exists err, env_Consumer env = inl err
                       /\ errors_Is err ErrConsumerNotFound = true)
       /\ env_CreateConsumer env = None)
  /\ ((exists c cfg, CreateConsumer env config = inr (c, JsUpdate cfg))
      <-> (exists info, env_NewNatsConnection env = inr info)
          /\ env_jetstream_New env = None
          /\ (exists cached, env_Consumer env = inr cached)
          /\ env_UpdateConsumer env = None).
Proof.
  unfold CreateConsumer.
  destruct (env_NewNatsConnection env) as [e|info]; [naive_solver|].
  destruct (env_jetstream_New env) as [e|]; [naive_solver|].
  destruct (env_Consumer env) as [err|cached].
  - destruct (errors_Is err ErrConsumerNotFound) eqn:Hnf; simpl.
    + destruct (env_CreateConsumer env) as [e|]; naive_solver.
    + split; split; try naive_solver.
      intros (_ & _ & (e' & [= <-] & He) & _). congruence.
  - destruct (env_UpdateConsumer env) as [e|]; naive_solver.
Qed.

(** X14. What a successful [CreateConsumer] returns: a consumer with an
    empty batch, no subscription, not paused, not stopping, carrying the
    configured cap, watermarks and validator; and a request whose durable
    name is [eds-server-<company>[-suffix]], with one filter subject per
    company id and the fixed ack settings, the same for a creation and for
    an update. *)
Theorem create_consumer_result (env : JetStreamEnv) (config : ConsumerConfig D)
    c (req : JsRequest) :
  CreateConsumer env config = inr (c, req) ->
  exists info,
    env_NewNatsConnection env = inr info
    /\ pending c = [] /\ pendingStarted c = None /\ batch_started c
    /\ subscriber c = None /\ pauseStarted c = None
    /\ stopping c = false /\ conn_open c = true
    /\ started c = Some (env_now env)
    /\ max c = cfg_MaxAckPending config
    /\ sessionID c = info_sessionID info
    /\ tableTimestamps c = cfg_ExportTableTimestamps config
    /\ validator c = cfg_SchemaValidator config
    /\ (cfg_Driver config = None <-> driver c = None)
    /\ js_Durable (request_config req)
       = "eds-server-" +:+ info_companyID info
           +:+ (if decide (cfg_Suffix config = EmptyString)
                then EmptyString else "-" +:+ cfg_Suffix config)
    /\ js_FilterSubjects (request_config req)
       = map (fun companyID =>
                "dbchange.*.*." +:+ companyID +:+ ".*.PUBLIC.>")
             (info_companyIDs info)
    /\ js_MaxAckPending (request_config req) = max c
    /\ js_MaxRequestBatch (request_config req) = cfg_MaxPendingBuffer config
    /\ js_MaxDeliver (request_config req) = 20
    /\ js_AckWait (request_config req) = 5 * 60 * 1000000000
    /\ js_AckPolicy (request_config req) = AckExplicitPolicy
    /\ js_InactiveThreshold (request_config req) = 72 * 3600 * 1000000000.
Proof.
  unfold CreateConsumer. intros Hc.
  destruct (env_NewNatsConnection env) as [e|info]; [done|].
  exists info. split; [done|].
  destruct (env_jetstream_New env) as [e|]; [done|].
  assert (Hdrv : cfg_Driver config = None <->
    match cfg_Driver config with
    | Some d => match SetSessionID with
                | Some set => Some (set d (info_sessionID info))
                | None => Some d
                end
    | None => None
    end = None).
  { destruct (cfg_Driver config); [|done]. by destruct SetSessionID. }
  destruct (env_Consumer env) as [err|cached].
  - destruct (errors_Is err ErrConsumerNotFound); simpl in Hc; [|done].
    destruct (env_CreateConsumer env); [done|]. injection Hc as <- <-.
    simpl. repeat split; try done; try apply Hdrv;
      try (by unfold batch_started).
    all: try by (destruct (cfg_DeliverAll config);
                 [|destruct (match cfg_ExportTableTimestamps config with
                             | Some stamps => earliest (map_to_list stamps)
                             | None => None end)]).
  - destruct (env_UpdateConsumer env); [done|]. injection Hc as <- <-.
    simpl. repeat split; try done; try apply Hdrv.
    by unfold batch_started.
Qed.
(** X15. After a successful [CreateConsumer], [NewConsumer] subscribes
    once: if the subscription succeeds the consumer returned differs from
    the created one only by holding the subscription, and starting it again
    is refused with no further action; if the subscription fails the
    connection is closed and the wrapped error returned, although the
    request for the durable consumer has already been sent. *)
Theorem new_consumer_outcome (env : JetStreamEnv)
    (consume : error + ConsumeContext) (config : ConsumerConfig D)
    (c0 : Consumer D) (req : JsRequest) :
  CreateConsumer env config = inr (c0, req) ->
  (forall sub, consume = inr sub ->
     exists c,
       NewConsumer env consume config = (inr c, Some req, [EConsume])
       /\ same_but_subscription c0 c
       /\ subscriber c = Some sub /\ pauseStarted c = None
       /\ pending c = [] /\ batch_started c
       /\ forall consume',
            Start consume' c
            = (Some (ErrOther "consumer already started"), c, []))
  /\ (forall err, consume = inl err ->
        NewConsumer env consume config
        = (inl (ErrWrap "error starting jetstream consumer" err), Some req,
           [EConsume; EConnClose])).
Proof.
  intros Hc.
  assert (Hsub : subscriber c0 = None /\ pending c0 = []).
  { unfold CreateConsumer in Hc. repeat case_match; by simplify_eq. }
  destruct Hsub as [Hsub Hp].
  unfold NewConsumer, Start, Unpause. rewrite Hc, Hsub. split.
  - intros sub ->. eexists. split; [reflexivity|]. simpl.
    split; [by repeat split|]. repeat split; try done.
    unfold batch_started. simpl. by rewrite Hp.
  - by intros err ->.
Qed.

Lemma on_pause_signal_safe (pause : bool) (t_now : Z)
    (consume : error + ConsumeContext) (paused : bool) c :
  flag_matches paused c ->
  let r := on_pause_signal pause t_now consume paused c in
  r.1.1.1 <> SigPanic
  /\ pending r.1.2 = pending c
  /\ pendingStarted r.1.2 = pendingStarted c
  /\ driver r.1.2 = driver c
  /\ Forall (fun a => is_flush a = false /\ is_ack a = false
                      /\ is_nak a = false) r.2
  /\ (r.1.1.1 = SigContinue -> flag_matches r.1.1.2 r.1.2).
Proof.
  intros Hflag. unfold on_pause_signal, Pause, Unpause.
  destruct pause, paused; simpl.
  - by split_and!.
  - destruct (subscriber c) as [s|] eqn:Hs; simpl.
    + split_and!; try done; try (by repeat constructor);
        try (intros _; by split).
    + exfalso. pose proof (proj2 Hflag Hs). done.
  - rewrite (proj1 Hflag eq_refl).
    destruct consume as [err|sub]; simpl; split_and!; try done;
      try (by repeat constructor); try (intros _; by split).
  - by split_and!.
Qed.

(** X16. Whatever sequence of pause and unpause requests the supervisor
    receives, its [paused] flag keeps it from calling [Pause] on a drained
    consumer: no panic occurs, repeated requests are ignored, nothing is
    flushed, acked or naked, and the pending batch, [pendingStarted] and the
    driver are untouched. *)
Theorem supervisor_pause_signals_safe
    (signals : list (bool * Z * (error + ConsumeContext))) (paused : bool) c :
  flag_matches paused c ->
  let r := on_pause_signals signals paused c in
  r.1.1.1 <> SigPanic
  /\ pending r.1.2 = pending c
  /\ pendingStarted r.1.2 = pendingStarted c
  /\ driver r.1.2 = driver c
  /\ Forall (fun a => is_flush a = false /\ is_ack a = false
                      /\ is_nak a = false) r.2
  /\ (r.1.1.1 = SigContinue -> flag_matches r.1.1.2 r.1.2).
Proof.
  revert paused c.
  induction signals as [|[[pause t_now] consume] signals IH];
    intros paused c Hflag; simpl.
  - by split_and!.
  - pose proof (on_pause_signal_safe pause t_now consume paused c Hflag)
      as Hstep. simpl in Hstep.
    destruct (on_pause_signal pause t_now consume paused c)
      as [[[o paused1] c1] t1]. simpl in *.
    destruct Hstep as (Hno & Hp & Hps & Hd & Ht & Hnext).
    destruct o; try done.
    specialize (IH paused1 c1 (Hnext eq_refl)). simpl in IH.
    destruct (on_pause_signals signals paused1 c1)
      as [[[o2 paused2] c2] t2]. simpl in *.
    destruct IH as (Hno2 & Hp2 & Hps2 & Hd2 & Ht2 & Hnext2).
    split_and!; try congruence; try done.
    by apply Forall_app.
Qed.
(** ** Failed iterations and catching up *)

(** X17. A message whose [Metadata()] cannot be read is never put in the
    batch and is neither acked nor naked: the batch held so far is naked,
    the metadata error is sent and the loop returns. *)
Theorem unreadable_message_is_not_settled c msg (err : error)
    (t_now t_catchup t_max : Z) :
  msg_Metadata msg = inl err ->
  Forall (fun m => msg_ptr m <> msg_ptr msg) (pending c) ->
  bufferer_step unmarshal (InMsg msg t_now t_catchup t_max) c
  = (Return, set_pending [] None c, map ENak (pending c) ++ [EEmit err])
  /\ msg_ptr msg
     ∉ omap settled_ptr
         (bufferer_step unmarshal (InMsg msg t_now t_catchup t_max) c).2.
Proof.
  intros Hmd Hfresh. unfold bufferer_step, handleError, nackEverything.
  rewrite Hmd. split; [done|]. simpl.
  rewrite omap_app, settled_naks. simpl. rewrite app_nil_r.
  intros Hin. apply list_elem_of_fmap in Hin. destruct Hin as [m [Hm Hin]].
  rewrite Forall_forall in Hfresh. by destruct (Hfresh m Hin).
Qed.

(** X18. When the payload does not decode, or [driver.Process] returns an
    error, the whole batch, the new message included, is naked in order,
    that error is sent, and the loop returns with an empty batch; in the
    first case the driver is not called at all. *)
Theorem failed_iteration_naks_batch c msg md (t_now t_catchup t_max : Z) :
  msg_Metadata msg = inr md ->
  (forall err, unmarshal (msg_Data msg) = inl err ->
     bufferer_step unmarshal (InMsg msg t_now t_catchup t_max) c
     = (Return, set_pending [] None c,
        map ENak (pending c ++ [msg]) ++ [EEmit err]))
  /\ (forall evt0 evt1 d d1 hint err,
        unmarshal (msg_Data msg) = inr evt0 ->
        shouldSkip c evt0 = (false, evt1) ->
        driver c = Some d ->
        Process d (set_NatsMsg msg evt1) = (d1, (hint, Some err)) ->
        bufferer_step unmarshal (InMsg msg t_now t_catchup t_max) c
        = (Return, set_pending [] None (set_driver d1 c),
           EProcess (set_NatsMsg msg evt1)
             :: map ENak (pending c ++ [msg]) ++ [EEmit err])).
Proof.
  intros Hmd. unfold bufferer_step, handleError, nackEverything.
  rewrite Hmd. split.
  - intros err Hu. by rewrite Hu.
  - intros evt0 evt1 d d1 hint err Hu Hs Hd Hp.
    rewrite Hu, shouldSkip_set_pending, Hs. simpl. by rewrite Hd, Hp.
Qed.

(** X19. Catching up: when the stream reports more messages waiting than
    [max] and the batch is younger than twice [maxPendingLatency], a
    processed message that leaves the batch below the driver's cap is
    followed by no flush, even if the batch has reached [max] or is older
    than [maxPendingLatency]; the loop just goes on, with [pendingStarted]
    set if it was not. *)
Theorem catchup_defers_flush c msg md evt0 evt1 (d d1 : D)
    (t_now t_catchup t_max : Z) :
  msg_Metadata msg = inr md ->
  unmarshal (msg_Data msg) = inr evt0 ->
  shouldSkip c evt0 = (false, evt1) ->
  driver c = Some d ->
  Process d (set_NatsMsg msg evt1) = (d1, (false, None)) ->
  Z.of_nat (length (pending c ++ [msg])) < maxBatch c d1 ->
  uint64 (max c) < NumPending md ->
  t_catchup - default t_now (pendingStarted c) < 2 * maxPendingLatency ->
  bufferer_step unmarshal (InMsg msg t_now t_catchup t_max) c
  = (Continue,
     set_pending (pending c ++ [msg])
                 (Some (default t_now (pendingStarted c))) (set_driver d1 c),
     [EProcess (set_NatsMsg msg evt1)]).
Proof.
  intros Hmd Hu Hs Hd Hp Hcap Hback Hyoung.
  unfold bufferer_step. rewrite Hmd, Hu, shouldSkip_set_pending, Hs.
  cbn [driver set_pending]. rewrite Hd, Hp. cbn [orb].
  assert (Hno : ((if MaxBatchSize d1 <=? 0
                  then max (set_driver d1 (set_pending (pending c ++ [msg])
                                             (pendingStarted c) c))
                  else MaxBatchSize d1)
                 <=? Z.of_nat (length (pending
                       (set_driver d1 (set_pending (pending c ++ [msg])
                                         (pendingStarted c) c))))) = false).
  { apply Z.leb_gt. unfold maxBatch in Hcap. simpl.
    destruct (Z.ltb_spec 0 (MaxBatchSize d1)), (Z.leb_spec (MaxBatchSize d1) 0);
      lia. }
  rewrite Hno.
  destruct (pendingStarted c) as [ps|] eqn:Hps; simpl in *.
  - rewrite (proj2 (Z.ltb_lt _ _) Hback).
    assert (Hy : (t_catchup - ps <? maxPendingLatency * 2) = true)
      by (apply Z.ltb_lt; lia).
    by rewrite Hy.
  - rewrite (proj2 (Z.ltb_lt _ _) Hback).
    assert (Hy : (t_catchup - t_now <? maxPendingLatency * 2) = true)
      by (apply Z.ltb_lt; lia).
    by rewrite Hy.
Qed.
(** ** Acks and flushes *)

Lemma naks_no_ack (l : list Msg) :
  Forall (fun a => is_ack a = false) (map ENak l).
Proof. induction l; by constructor. Qed.

Lemma ack_behind_flush (pre rest t1 t2 : list Action) m :
  Forall (fun a => is_ack a = false) pre ->
  pre ++ EFlush :: rest = t1 ++ EAck m :: t2 ->
  EFlush ∈ t1.
Proof.
  revert t1. induction pre as [|a pre IH]; intros t1 Hpre Heq; simpl in *.
  - destruct t1 as [|b t1]; simplify_eq/=. by left.
  - inversion Hpre as [|? ? Ha Hpre']; subst.
    destruct t1 as [|b t1]; simplify_eq/=. right. by eapply IH.
Qed.

Lemma no_ack_no_split (t t1 t2 : list Action) m :
  Forall (fun a => is_ack a = false) t -> t <> t1 ++ EAck m :: t2.
Proof.
  intros Hall ->. apply Forall_app in Hall. destruct Hall as [_ Hall].
  by inversion Hall.
Qed.

(** X20. In every iteration of the loop an ack is either the single ack
    of the skip path (the iteration then does nothing else, and in
    particular hands nothing to the driver) or comes after the
    [driver.Flush] of that iteration: a processed message is never acked
    without a flush in between. *)
Theorem acks_follow_flush (i : Input) c (t1 t2 : list Action) m :
  (bufferer_step unmarshal i c).2 = t1 ++ EAck m :: t2 ->
  EFlush ∈ t1
  \/ (t1 = [] /\ t2 = []
      /\ (bufferer_step unmarshal i c).1.1 = Continue
      /\ forall a, a ∈ (bufferer_step unmarshal i c).2 -> is_process a = false).
Proof.
  assert (Hfl : forall cx pre,
            Forall (fun a => is_ack a = false) pre ->
            pre ++ (flush cx).2 = t1 ++ EAck m :: t2 -> EFlush ∈ t1).
  { intros cx pre Hpre Heq.
    destruct (flush_cases cx) as [[Hd Hf]|[d [stop [t [Hd [Hf _]]]]]];
      rewrite Hf in Heq; simpl in Heq.
    - rewrite app_nil_r in Heq. by destruct (no_ack_no_split _ _ _ _ Hpre Heq).
    - by eapply ack_behind_flush. }
  step_cases.
  all: intros Heq.
  all: try (left; eapply (Hfl _ [EProcess _]);
            [by repeat constructor | exact Heq]).
  all: try (left; eapply (Hfl _ []); [by constructor | exact Heq]).
  all: try (exfalso; eapply no_ack_no_split; [|exact Heq];
            solve [ repeat first [ apply naks_no_ack
                                 | apply Forall_app; split
                                 | by constructor
                                 | constructor; [done|] ] ]).
  right. destruct t1 as [|a t1]; simplify_eq/=.
  - split_and!; try done. intros a Ha. apply list_elem_of_singleton in Ha.
    by subst.
  - by destruct t1.
Qed.
(** ** [Stop] against the dispatcher *)

(** With nothing landing in between, the statement-by-statement branch is
    the [default] branch of the loop. *)
Lemma default_branch_uninterrupted (t_min : Z) (cancelled : bool) c :
  default_branch_interleaved (fun c0 => (c0, [])) t_min cancelled c
  = bufferer_step unmarshal (InDefault t_min cancelled) c.
Proof.
  unfold default_branch_interleaved, default_read_count.
  change (bufferer_step unmarshal (InDefault t_min cancelled) c)
    with (default_with_count (Z.of_nat (length (pending c))) t_min cancelled c).
  by destruct (default_with_count _ t_min cancelled c) as [[o c2] t2].
Qed.

(** What the flush of [Stop] leaves behind when a driver is present: an
    empty batch and no [pendingStarted], whatever the batch was. *)
Lemma Stop_flush_resets c :
  driver c <> None ->
  pending (Stop_flush c).1 = [] /\ pendingStarted (Stop_flush c).1 = None.
Proof.
  intros Hd. unfold Stop_flush.
  destruct (flush_empties (set_stopping true c) Hd) as [Hp Hps].
  by destruct (flush (set_stopping true c)) as [[stop c1] t].
Qed.

(** The race in general: with a driver present, a batch of at least one
    and fewer than [max] messages, the flush of [Stop] landing after
    [count := len(c.pending)] makes the dispatcher dereference a nil
    [pendingStarted], although the invariant held. *)
Lemma stop_flush_then_deref_is_nil (t_min : Z) (cancelled : bool) c :
  driver c <> None ->
  pending c <> [] ->
  Z.of_nat (length (pending c)) < max c ->
  (default_branch_interleaved Stop_flush t_min cancelled c).1.1
  = PanicNilPendingStarted.
Proof.
  intros Hd Hne Hlt. unfold default_branch_interleaved, default_read_count.
  destruct (Stop_flush_resets c Hd) as [_ Hps].
  assert (Hmax : max (Stop_flush c).1 = max c).
  { unfold Stop_flush. pose proof (flush_max (set_stopping true c)) as Hm.
    by destruct (flush (set_stopping true c)) as [[stop c1] t]. }
  destruct (Stop_flush c) as [c1 t1]. simpl in *.
  unfold default_with_count. rewrite Hps, Hmax. simpl.
  assert (Hpos : (0 <? Z.of_nat (length (pending c))) = true).
  { apply Z.ltb_lt. destruct (pending c); [done|]. simpl. lia. }
  by rewrite Hpos, (proj2 (Z.ltb_lt _ _) Hlt).
Qed.

End MoreProperties.

(** * The further properties on concrete runs *)

Lemma flush_wrapped_driver_stopped_witness :
  let err := wrap_all ["flush"; "sql"] ErrDriverStopped in
  let d := mkScript 0 [] [Some err] "" in
  let c := sample_consumer 10 d [msg_new] (Some 5) in
  driver c = Some d
  /\ Flush d = (idle_driver, Some err)
  /\ flush c
     = (true, sample_consumer 10 idle_driver [] None, [EFlush; ENak msg_new]).
Proof.
  intros err d c.
  assert (Hd : driver c = Some d) by reflexivity.
  assert (Hf : Flush d = (idle_driver, Some err)) by reflexivity.
  split; [exact Hd|]. split; [exact Hf|].
  exact (flush_wrapped_driver_stopped c d idle_driver ["flush"; "sql"] Hd Hf).
Defined.

Lemma dispatcher_returns_with_nothing_pending_witness :
  let c := sample_consumer 10 idle_driver [] None in
  let inputs := [InMsg msg_new 100 101 102; InDone] in
  driver c <> None
  /\ (bufferer sample_unmarshal inputs c).1.1 = Return
  /\ pending (bufferer sample_unmarshal inputs c).1.2 = [].
Proof.
  intros c inputs.
  assert (Hd : driver c <> None) by (intros Hx; discriminate Hx).
  assert (Hret : (bufferer sample_unmarshal inputs c).1.1 = Return)
    by reflexivity.
  split; [exact Hd|]. split; [exact Hret|].
  destruct (dispatcher_returns_with_nothing_pending sample_unmarshal inputs c
              Hd) as [_ [_ Hempty]].
  exact (proj1 (Hempty Hret)).
Defined.

Lemma dispatcher_settles_or_keeps_witness :
  let c := sample_consumer 10 idle_driver [] None in
  let inputs := [InMsg msg_new 100 101 102; InDone] in
  2%nat ∈ map msg_ptr (pending c)
          ++ map msg_ptr (omap input_readable_msg
                               (taken sample_unmarshal inputs c))
  /\ (2%nat ∈ omap settled_ptr (bufferer sample_unmarshal inputs c).2
      \/ 2%nat ∈ map msg_ptr (pending (bufferer sample_unmarshal inputs c).1.2)).
Proof.
  intros c inputs.
  assert (Hin : 2%nat ∈ map msg_ptr (pending c)
                  ++ map msg_ptr (omap input_readable_msg
                                       (taken sample_unmarshal inputs c))).
  { apply list_elem_of_In. vm_compute. left. reflexivity. }
  split; [exact Hin|].
  exact (dispatcher_settles_or_keeps sample_unmarshal inputs c 2%nat Hin).
Defined.

Lemma batch_stays_below_cap_witness :
  let c := sample_consumer 10 idle_driver [] None in
  let inputs := [InMsg msg_new 100 101 102; InMsg msg_cust 200 201 202] in
  below_cap c
  /\ (bufferer sample_unmarshal inputs c).1.1 = Continue
  /\ below_cap (bufferer sample_unmarshal inputs c).1.2.
Proof.
  intros c inputs.
  assert (Hinv : below_cap c) by (intros d _; left; reflexivity).
  assert (Hgo : (bufferer sample_unmarshal inputs c).1.1 = Continue)
    by reflexivity.
  split; [exact Hinv|]. split; [exact Hgo|].
  exact (batch_stays_below_cap sample_unmarshal inputs c Hinv Hgo).
Defined.

Lemma idle_rounds_never_flush_full_batch_witness :
  let c := sample_consumer 1 wide_driver [msg_new] (Some 5) in
  let inputs := [InDefault 99000000000 false; InDefault 199000000000 true] in
  Forall (fun i => is_idle i = true) inputs
  /\ pending c <> []
  /\ max c <= Z.of_nat (length (pending c))
  /\ bufferer sample_unmarshal inputs c = (Continue, c, []).
Proof.
  intros c inputs.
  assert (Hidle : Forall (fun i => is_idle i = true) inputs)
    by (repeat constructor).
  assert (Hne : pending c <> []) by (intros Hx; discriminate Hx).
  assert (Hfull : max c <= Z.of_nat (length (pending c)))
    by (vm_compute; intros Hx; discriminate Hx).
  split; [exact Hidle|]. split; [exact Hne|]. split; [exact Hfull|].
  exact (idle_rounds_never_flush_full_batch sample_unmarshal inputs c
           Hidle Hne Hfull).
Defined.

Lemma earliest_order_independent_witness :
  let entries := [("orders", Some 17); ("users", None); ("customers", Some 16)] in
  let entries' := [("users", None); ("orders", Some 17); ("customers", Some 16)] in
  entries ≡ₚ entries'
  /\ earliest entries = earliest entries'
  /\ earliest entries = Some 16.
Proof.
  intros entries entries'.
  assert (Hperm : entries ≡ₚ entries') by apply perm_swap.
  split; [exact Hperm|]. split; [|reflexivity].
  exact (earliest_order_independent entries entries' Hperm).
Defined.

Lemma event_processed_iff_not_before_watermark_witness :
  let c := with_stamps (sample_consumer 10 idle_driver [] None) in
  let evt := sample_event "orders" 1699999999999 in
  msg_Metadata msg_old = inr (mkMetadata 1 1 1 0)
  /\ sample_unmarshal (msg_Data msg_old) = inr evt
  /\ validator c = None
  /\ driver c = Some idle_driver
  /\ before_watermark c evt
  /\ (bufferer_step sample_unmarshal (InMsg msg_old 100 101 102) c).2
     = [EAck msg_old].
Proof.
  intros c evt.
  assert (Hmd : msg_Metadata msg_old = inr (mkMetadata 1 1 1 0))
    by reflexivity.
  assert (Hu : sample_unmarshal (msg_Data msg_old) = inr evt) by reflexivity.
  assert (Hv : validator c = None) by reflexivity.
  assert (Hd : driver c = Some idle_driver) by reflexivity.
  assert (Hb : before_watermark c evt).
  { exists sample_stamps, (UnixMilli 1700000000000).
    split; [reflexivity|]. split; vm_compute; reflexivity. }
  split; [exact Hmd|]. split; [exact Hu|]. split; [exact Hv|].
  split; [exact Hd|]. split; [exact Hb|].
  exact (proj1 (event_processed_iff_not_before_watermark sample_unmarshal c
                  msg_old (mkMetadata 1 1 1 0) evt idle_driver 100 101 102
                  Hmd Hu Hv Hd) Hb).
Defined.

Lemma create_consumer_result_witness :
  let config := sample_config false None in
  CreateConsumer env_fresh config = inr (created_consumer, created_request)
  /\ pending created_consumer = []
  /\ pendingStarted created_consumer = None.
Proof.
  intros config.
  assert (Hc : CreateConsumer env_fresh config
               = inr (created_consumer, created_request)) by reflexivity.
  split; [exact Hc|].
  destruct (create_consumer_result env_fresh config created_consumer
              created_request Hc) as [info [_ [Hp [Hps _]]]].
  split; [exact Hp | exact Hps].
Defined.

Lemma new_consumer_outcome_witness :
  let config := sample_config false None in
  CreateConsumer env_fresh config = inr (created_consumer, created_request)
  /\ exists c,
      NewConsumer env_fresh (inr 8%nat) config
      = (inr c, Some created_request, [EConsume])
      /\ subscriber c = Some 8%nat.
Proof.
  intros config.
  assert (Hc : CreateConsumer env_fresh config
               = inr (created_consumer, created_request)) by reflexivity.
  split; [exact Hc|].
  destruct (new_consumer_outcome env_fresh (inr 8%nat) config created_consumer
              created_request Hc) as [Hok _].
  destruct (Hok 8%nat eq_refl) as [c [Hnew [_ [Hsub _]]]].
  exists c. split; [exact Hnew | exact Hsub].
Defined.

Lemma supervisor_pause_signals_safe_witness :
  let c := sample_consumer 10 idle_driver [msg_new] (Some 5) in
  let signals :=
    [(true, 5, inr 8%nat); (true, 6, inr 9%nat); (false, 7, inr 10%nat);
     (false, 8, inr 11%nat)] in
  flag_matches false c
  /\ (on_pause_signals signals false c).1.1.1 <> SigPanic
  /\ pending (on_pause_signals signals false c).1.2 = [msg_new].
Proof.
  intros c signals.
  assert (Hflag : flag_matches false c).
  { split; intros Hx; discriminate Hx. }
  split; [exact Hflag|].
  destruct (supervisor_pause_signals_safe signals false c Hflag)
    as [Hno [Hp _]].
  split; [exact Hno | exact Hp].
Defined.

Lemma unreadable_message_is_not_settled_witness :
  let c := sample_consumer 10 idle_driver [msg_new] (Some 5) in
  msg_Metadata msg_no_meta = inl (ErrOther "nats: no metadata")
  /\ Forall (fun m => msg_ptr m <> msg_ptr msg_no_meta) (pending c)
  /\ bufferer_step sample_unmarshal (InMsg msg_no_meta 100 101 102) c
     = (Return, sample_consumer 10 idle_driver [] None,
        [ENak msg_new; EEmit (ErrOther "nats: no metadata")]).
Proof.
  intros c.
  assert (Hmd : msg_Metadata msg_no_meta = inl (ErrOther "nats: no metadata"))
    by reflexivity.
  assert (Hfresh : Forall (fun m => msg_ptr m <> msg_ptr msg_no_meta)
                          (pending c)).
  { repeat constructor. simpl. discriminate. }
  split; [exact Hmd|]. split; [exact Hfresh|].
  exact (proj1 (unreadable_message_is_not_settled sample_unmarshal c
                  msg_no_meta (ErrOther "nats: no metadata") 100 101 102
                  Hmd Hfresh)).
Defined.

(** Scenario 4: a truncated payload. *)
Lemma failed_iteration_naks_batch_witness :
  let c := sample_consumer 10 idle_driver [msg_new] (Some 5) in
  msg_Metadata msg_garbled = inr (mkMetadata 6 6 1 0)
  /\ bufferer_step sample_unmarshal (InMsg msg_garbled 100 101 102) c
     = (Return, sample_consumer 10 idle_driver [] None,
        [ENak msg_new; ENak msg_garbled;
         EEmit (ErrOther "unexpected end of JSON input")]).
Proof.
  intros c.
  assert (Hmd : msg_Metadata msg_garbled = inr (mkMetadata 6 6 1 0))
    by reflexivity.
  assert (Hu : sample_unmarshal (msg_Data msg_garbled)
               = inl (ErrOther "unexpected end of JSON input"))
    by reflexivity.
  split; [exact Hmd|].
  exact (proj1 (failed_iteration_naks_batch sample_unmarshal c msg_garbled
                  (mkMetadata 6 6 1 0) 100 101 102 Hmd)
               (ErrOther "unexpected end of JSON input") Hu).
Defined.

(** A backlog of 5000 on the stream, a cap of 100 on the driver and
    [max] = 1: the second message is processed and nothing is flushed. *)
Lemma catchup_defers_flush_witness :
  let c := sample_consumer 1 wide_driver [msg_new] (Some 5) in
  let evt := sample_event "orders" 1700000000001 in
  msg_Metadata msg_backlog = inr (mkMetadata 7 7 1 5000)
  /\ sample_unmarshal (msg_Data msg_backlog) = inr evt
  /\ shouldSkip c evt = (false, evt)
  /\ driver c = Some wide_driver
  /\ Process wide_driver (set_NatsMsg msg_backlog evt)
     = (wide_driver, (false, None))
  /\ Z.of_nat (length (pending c ++ [msg_backlog])) < maxBatch c wide_driver
  /\ uint64 (max c) < NumPending (mkMetadata 7 7 1 5000)
  /\ 40000000000 - default 100 (pendingStarted c) < 2 * maxPendingLatency
  /\ bufferer_step sample_unmarshal
                   (InMsg msg_backlog 100 40000000000 40000000001) c
     = (Continue, sample_consumer 1 wide_driver [msg_new; msg_backlog] (Some 5),
        [EProcess (set_NatsMsg msg_backlog evt)]).
Proof.
  intros c evt.
  assert (Hmd : msg_Metadata msg_backlog = inr (mkMetadata 7 7 1 5000))
    by reflexivity.
  assert (Hu : sample_unmarshal (msg_Data msg_backlog) = inr evt)
    by reflexivity.
  assert (Hs : shouldSkip c evt = (false, evt)) by reflexivity.
  assert (Hd : driver c = Some wide_driver) by reflexivity.
  assert (Hp : Process wide_driver (set_NatsMsg msg_backlog evt)
               = (wide_driver, (false, None))) by reflexivity.
  assert (Hcap : Z.of_nat (length (pending c ++ [msg_backlog]))
                 < maxBatch c wide_driver) by (vm_compute; reflexivity).
  assert (Hback : uint64 (max c) < NumPending (mkMetadata 7 7 1 5000))
    by (vm_compute; reflexivity).
  assert (Hyoung : 40000000000 - default 100 (pendingStarted c)
                   < 2 * maxPendingLatency) by (vm_compute; reflexivity).
  split; [exact Hmd|]. split; [exact Hu|]. split; [exact Hs|].
  split; [exact Hd|]. split; [exact Hp|]. split; [exact Hcap|].
  split; [exact Hback|]. split; [exact Hyoung|].
  exact (catchup_defers_flush sample_unmarshal c msg_backlog
           (mkMetadata 7 7 1 5000) evt evt wide_driver wide_driver
           100 40000000000 40000000001 Hmd Hu Hs Hd Hp Hcap Hback Hyoung).
Defined.

Lemma acks_follow_flush_witness :
  let d := mkScript 0 [(true, None)] [] "" in
  let c := sample_consumer 10 d [] None in
  let evt := set_NatsMsg msg_new (sample_event "orders" 1700000000001) in
  (bufferer_step sample_unmarshal (InMsg msg_new 100 101 102) c).2
  = [EProcess evt; EFlush] ++ EAck msg_new :: []
  /\ EFlush ∈ [EProcess evt; EFlush].
Proof.
  intros d c evt.
  assert (Heq : (bufferer_step sample_unmarshal (InMsg msg_new 100 101 102) c).2
                = [EProcess evt; EFlush] ++ EAck msg_new :: [])
    by reflexivity.
  split; [exact Heq|].
  destruct (acks_follow_flush sample_unmarshal (InMsg msg_new 100 101 102) c
              [EProcess evt; EFlush] [] msg_new Heq) as [Hin|[Hnil _]].
  - exact Hin.
  - discriminate Hnil.
Defined.

(** C9, on a consumer holding a batch of one with [pendingStarted] set
    (the invariant holds, and an idle round of the dispatcher alone is
    harmless): [Stop] is called, its flush acks the batch and resets
    [pendingStarted] after the dispatcher has read [len(c.pending)] in its
    [default] branch, and the dispatcher then dereferences a nil
    [pendingStarted]. *)
Theorem stop_flush_races_dispatcher_to_nil_deref :
  let c := sample_consumer 10 idle_driver [msg_new] (Some 5) in
  batch_started c
  /\ bufferer_step sample_unmarshal (InDefault 3000000000 false) c
     = (Continue, sample_consumer 10 idle_driver [] None,
        [EFlush; EAck msg_new])
  /\ Stop_flush c
     = (set_stopping true (sample_consumer 10 idle_driver [] None),
        [EFlush; EAck msg_new])
  /\ default_branch_interleaved Stop_flush 3000000000 false c
     = (PanicNilPendingStarted,
        set_stopping true (sample_consumer 10 idle_driver [] None),
        [EFlush; EAck msg_new]).
Proof.
  intros c. split; [by intros _|]. by split_and!.
Qed.
